(** * Windows service lifecycle controller (service/service_windows.go)

    A model of [beatService.Execute], [trySendState], [beatService.stop],
    [ProcessWindowsControlEvents] and [WaitExecutionDone].

    [Execute] runs two goroutines (its own and the multiplexer it spawns)
    against an environment made of the service manager (which offers control
    requests on [r] and takes status reports from [changes]) and of the
    application (which closes [m.done]).  The model is a step function on a
    system state: every step is one scheduling decision, so a list of
    decisions is one interleaving. *)

From Stdlib Require Import NArith Lia.
From stdpp Require Import base list strings.

(** ** The parts of golang.org/x/sys/windows/svc that the handler uses *)

Module svc.

(** [svc.State]: the service states the manager knows. *)
Inductive State :=
| Stopped | StartPending | StopPending | Running
| ContinuePending | PausePending | Paused.

(** [svc.Cmd]: the control codes; [Other] stands for every code the
    handler has no case for. *)
Inductive Cmd :=
| Stop | Pause | Continue | Interrogate | Shutdown | Other (code : N).

(** [svc.Accepted] is a bit mask; the two bits are SERVICE_ACCEPT_STOP and
    SERVICE_ACCEPT_SHUTDOWN of the Windows API. *)
Definition Accepted := N.
Definition AcceptStop : Accepted := 1%N.
Definition AcceptShutdown : Accepted := 4%N.

Record Status := mkStatus { State_ : State; Accepts : Accepted }.

Record ChangeRequest := mkChangeRequest { Cmd_ : Cmd; CurrentStatus : Status }.

End svc.

(** The zero value of [svc.Status], and the composite literals of the source. *)
Definition zeroStatus : svc.Status := svc.mkStatus svc.Stopped 0%N.
Definition statusOf (s : svc.State) : svc.Status := svc.mkStatus s 0%N.
Definition requestOf (c : svc.Cmd) : svc.ChangeRequest :=
  svc.mkChangeRequest c zeroStatus.

(** ** Channels that are only ever closed *)

Inductive chan := ChanOpen | ChanClosed.

(** What a call does: it returns, or the goroutine panics. *)
Inductive completion (A : Type) :=
| Returns (a : A)
| Panics (msg : string).
Arguments Returns {A} a.
Arguments Panics {A} msg.

(** Go's [close]: closing a closed channel panics. *)
Definition close (c : chan) : completion chan :=
  match c with
  | ChanOpen => Returns ChanClosed
  | ChanClosed => Panics "close of closed channel"
  end.

(** ** The service instance *)

Record beatService := mkBeatService {
  stopCallback : option nat;   (* the registered procedure, [None] for nil *)
  done : chan;
  executeFinished : chan;
}.

Definition serviceInstance : beatService :=
  mkBeatService None ChanOpen ChanOpen.

(** [func (m *beatService) stop() { close(m.done) }] *)
Definition stop (m : beatService) : completion beatService :=
  match close (done m) with
  | Returns c => Returns (mkBeatService (stopCallback m) c (executeFinished m))
  | Panics msg => Panics msg
  end.

(** [notifyWindowsServiceStopped] calls [stop] on the instance. *)
Definition notifyWindowsServiceStopped (m : beatService) : completion beatService :=
  stop m.

(** ** What an observer sees *)

(** Which statement issued a report: the plain sends at startup (lines 47-48),
    the plain sends of the interrogate case (lines 67 and 70), or
    [trySendState] (lines 86-87). *)
Inductive origin := Startup | Echo | Bounded.

Record report := mkReport {
  rOrigin : origin;
  rStatus : svc.Status;
  rDelivered : bool;   (* the sink took the value *)
  rWaited : nat;       (* milliseconds the statement was blocked *)
}.

Inductive level := Debug | Info | Error.

Inductive event :=
| EvReport (p : report)
| EvSleep (ms : nat)
| EvLog (l : level) (msg : string)
| EvCallback (f : nat).              (* the procedure [f] was called and returned *)

(** [const cmdsAccepted = svc.AcceptStop | svc.AcceptShutdown] *)
Definition cmdsAccepted : svc.Accepted := N.lor svc.AcceptStop svc.AcceptShutdown.

(** ** trySendState *)

(** The deadline of [time.After(500 * time.Millisecond)]. *)
Definition sendDeadline : nat := 500.

(** The case that [select] takes: the send, with the sink ready after [d]
    milliseconds, or the timer. *)
Inductive select_case := CaseSend (d : nat) | CaseTimer.

(** [trySendState(s, changes)]: one [select] over the send and the timer.
    The send case can only be taken when the sink is ready no later than the
    timer; [None] says that the case is not available. *)
Definition trySendState (s : svc.State) (pick : select_case) : option report :=
  match pick with
  | CaseSend d =>
      if (d <=? sendDeadline)%nat
      then Some (mkReport Bounded (statusOf s) true d)
      else None
  | CaseTimer => Some (mkReport Bounded (statusOf s) false sendDeadline)
  end.

(** [changes <- st]: a plain send, which lasts until the sink takes the value. *)
Definition send (o : origin) (st : svc.Status) (d : nat) : report :=
  mkReport o st true d.

(** ** Execute as a transition system *)

(** Where the multiplexer goroutine (lines 52-61) stands. *)
Inductive gpc :=
| GNotStarted
| GSelect                            (* line 53 *)
| GSend (c : svc.ChangeRequest)      (* lines 55 and 58 *)
| GExited.

(** Where [Execute]'s own goroutine stands. *)
Inductive mpc :=
| MStartPending                      (* line 47 *)
| MRunning                           (* line 48 *)
| MSpawn                             (* lines 50-52 *)
| MLoop                              (* line 64 *)
| MEcho1 (c : svc.ChangeRequest)     (* line 67 *)
| MSleep (c : svc.ChangeRequest)     (* line 69 *)
| MEcho2 (c : svc.ChangeRequest)     (* line 70 *)
| MStopPending                       (* line 86 *)
| MCallback                          (* lines 89-90 *)
| MWaitDone                          (* line 95 *)
| MDeferred                          (* line 87, run when the function returns *)
| MReturned (res : bool * N).        (* line 97 *)

Record sys := mkSys {
  m : beatService;
  r : list svc.ChangeRequest;   (* requests the manager has offered, oldest first *)
  main : mpc;
  mux : gpc;
  ssec : bool;                  (* the named results *)
  errno : N;
  trace : list event;           (* oldest first *)
}.

(** One scheduling decision. *)
Inductive action :=
| AAccept (d : nat)                  (* the sink takes the offered status after [d] ms *)
| ATimeout                           (* the timer of [trySendState] fires *)
| AInbound (c : svc.ChangeRequest)   (* the manager offers [c] on [r] *)
| AStop                              (* some goroutine calls [m.stop()] *)
| AMuxRecv                           (* line 54: [case c := <-r] *)
| AMuxDone                           (* line 56: [case <-m.done] *)
| AHandoff                           (* [combinedChan]: send meets receive *)
| AMain.                             (* a step of [Execute] that needs no partner *)

Inductive outcome :=
| Next (s : sys)
| Blocked
| Panic (msg : string).

Definition with_main (pc : mpc) (evs : list event) (s : sys) : sys :=
  mkSys (m s) (r s) pc (mux s) (ssec s) (errno s) (trace s ++ evs).

Definition with_mux (g : gpc) (s : sys) : sys :=
  mkSys (m s) (r s) (main s) g (ssec s) (errno s) (trace s).

Definition with_r (q : list svc.ChangeRequest) (s : sys) : sys :=
  mkSys (m s) q (main s) (mux s) (ssec s) (errno s) (trace s).

Definition with_m (b : beatService) (s : sys) : sys :=
  mkSys b (r s) (main s) (mux s) (ssec s) (errno s) (trace s).

(** The [switch c.Cmd] of the event loop (lines 65-83): where the loop goes
    and what it logs before any report. *)
Definition dispatch (c : svc.ChangeRequest) : mpc * list event :=
  match svc.Cmd_ c with
  | svc.Interrogate => (MEcho1 c, [])
  | svc.Stop =>
      (MStopPending,
       [EvLog Info "received state change 'svc.Stop' from windows service manager"])
  | svc.Shutdown =>
      (MStopPending,
       [EvLog Info "received state change 'svc.Shutdown' from windows service manager"])
  | _ => (MLoop, [EvLog Error "Unexpected control request: $%d. Ignored."])
  end.

(** A report made by [trySendState], then [pc]. The calls on lines 86 and 87
    name the state only; the sink is the [changes] that [Execute] was given,
    the one channel of statuses in scope. *)
Definition bounded (st : svc.State) (pick : select_case) (pc : mpc) (s : sys) : outcome :=
  match trySendState st pick with
  | Some p => Next (with_main pc [EvReport p] s)
  | None => Blocked
  end.

Definition Execute_step (a : action) (s : sys) : outcome :=
  match a with
  | AInbound c => Next (with_r (r s ++ [c]) s)
  | AStop =>
      match stop (m s) with
      | Returns b => Next (with_m b s)
      | Panics msg => Panic msg
      end
  | AAccept d =>
      match main s with
      | MStartPending =>
          Next (with_main MRunning
                  [EvReport (send Startup (statusOf svc.StartPending) d)] s)
      | MRunning =>
          Next (with_main MSpawn
                  [EvReport (send Startup (svc.mkStatus svc.Running cmdsAccepted) d)] s)
      | MEcho1 c =>
          Next (with_main (MSleep c) [EvReport (send Echo (svc.CurrentStatus c) d)] s)
      | MEcho2 c =>
          Next (with_main MLoop [EvReport (send Echo (svc.CurrentStatus c) d)] s)
      | MStopPending => bounded svc.StopPending (CaseSend d) MCallback s
      | MDeferred => bounded svc.Stopped (CaseSend d) (MReturned (ssec s, errno s)) s
      | _ => Blocked
      end
  | ATimeout =>
      match main s with
      | MStopPending => bounded svc.StopPending CaseTimer MCallback s
      | MDeferred => bounded svc.Stopped CaseTimer (MReturned (ssec s, errno s)) s
      | _ => Blocked
      end
  | AMuxRecv =>
      match mux s, r s with
      | GSelect, c :: q => Next (with_mux (GSend c) (with_r q s))
      | _, _ => Blocked
      end
  | AMuxDone =>
      match mux s, done (m s) with
      | GSelect, ChanClosed => Next (with_mux (GSend (requestOf svc.Shutdown)) s)
      | _, _ => Blocked
      end
  | AHandoff =>
      match mux s, main s with
      | GSend c, MLoop =>
          (* the [select] is in no loop: after its one send the goroutine ends *)
          let '(pc, evs) := dispatch c in
          Next (with_mux GExited (with_main pc evs s))
      | _, _ => Blocked
      end
  | AMain =>
      match main s with
      | MSpawn => Next (with_mux GSelect (with_main MLoop [] s))
      | MSleep c => Next (with_main (MEcho2 c) [EvSleep 100] s)
      | MCallback =>
          match stopCallback (m s) with
          | Some f =>
              Next (with_main MWaitDone
                      [EvLog Info "changed windows service state to svc.StopPending, invoking stopCallback";
                       EvCallback f] s)
          | None => Panic "invalid memory address or nil pointer dereference"
          end
      | MWaitDone =>
          match done (m s) with
          | ChanClosed =>
              Next (with_main MDeferred
                      [EvLog Debug "windows service state changed to svc.Stopped"] s)
          | ChanOpen => Blocked
          end
      | _ => Blocked
      end
  end.

(** An interleaving: the decisions in order.  It stops at the first decision
    that cannot be taken. *)
Fixpoint Execute_run (acts : list action) (s : sys) : outcome :=
  match acts with
  | [] => Next s
  | a :: rest =>
      match Execute_step a s with
      | Next s' => Execute_run rest s'
      | o => o
      end
  end.

(** The instance once line 139 has stored the callback [f]. *)
Definition registered (f : nat) : beatService :=
  mkBeatService (Some f) (done serviceInstance) (executeFinished serviceInstance).

(** [Execute] is entered on the registered instance, with no request offered
    yet and the named results at their zero values. *)
Definition Execute_init (f : nat) : sys :=
  mkSys (registered f) [] MStartPending GNotStarted false 0%N [].

(** ** ProcessWindowsControlEvents and WaitExecutionDone *)

(** An [error] value: a [syscall.Errno], or any other error. *)
Inductive error :=
| Errno (e : N)
| OtherError (msg : string).

(** [const couldNotConnect syscall.Errno = 1063] *)
Definition couldNotConnect : N := 1063%N.

(** What the platform answers to the calls of this file: the two queries, and
    the registration through [svc.Run] or [debug.Run], which returns when the
    service has stopped or could not be registered. *)
Record platform := mkPlatform {
  IsAnInteractiveSession : error + bool;
  IsWindowsService : error + bool;
  svcRun : option error;
  debugRun : option error;
}.

(** What [ProcessWindowsControlEvents] does that others can see. *)
Inductive effect :=
| Logged (l : level) (msg : string)
| RunCalled (interactive : bool) (handler : beatService)
| ClosedExecuteFinished.

(** [errnoErr, ok := err.(syscall.Errno); ok && errnoErr == couldNotConnect] *)
Definition isCouldNotConnect (err : error) : bool :=
  match err with
  | Errno e => N.eqb e couldNotConnect
  | OtherError _ => false
  end.

(** The body of [ProcessWindowsControlEvents], lines 127-165: the instance
    it leaves and what it did. What the service and the application do while
    [run] is running (the whole of [Execute], the closing of [done]) is not
    part of this function and is left out. *)
Definition ProcessWindowsControlEvents_body
    (p : platform) (callback : nat) (b : beatService) : beatService * list effect :=
  match IsAnInteractiveSession p with
  | inl _ => (b, [Logged Error "IsAnInteractiveSession: %v"])
  | inr isInteractive =>
      let run := if isInteractive then debugRun p else svcRun p in
      let b' := mkBeatService (Some callback) (done b) (executeFinished b) in
      let before := [Logged Debug "Windows is interactive: %v";
                     RunCalled isInteractive b'] in
      match run with
      | None => (b', before)
      | Some err =>
          if isCouldNotConnect err
          then (b', before ++
                    [Logged Info "Attempted to register Windows service handlers, but this is not a service. No action necessary"])
          else (b', before ++ [Logged Error "Windows service setup failed: %+v"])
      end
  end.

(** [ProcessWindowsControlEvents(stopCallback)]: the body, and then the
    deferred [close(serviceInstance.executeFinished)] of line 124. *)
Definition ProcessWindowsControlEvents
    (p : platform) (callback : nat) (b : beatService)
  : completion (beatService * list effect) :=
  let '(b', effs) := ProcessWindowsControlEvents_body p callback b in
  match close (executeFinished b') with
  | Returns c =>
      Returns (mkBeatService (stopCallback b') (done b') c,
               effs ++ [ClosedExecuteFinished])
  | Panics msg => Panics msg
  end.

(** The deadline of [WaitExecutionDone]. *)
Definition waitDeadline : nat := 500.

(** [WaitExecutionDone()]: the milliseconds it blocks, on an instance whose
    [executeFinished] is closed [closes] ms after the call ([None]: never). *)
Definition WaitExecutionDone
    (p : platform) (b : beatService) (closes : option nat) : nat :=
  match IsWindowsService p with
  | inr true =>
      match executeFinished b, closes with
      | ChanClosed, _ => 0
      | ChanOpen, Some d => Nat.min d waitDeadline
      | ChanOpen, None => waitDeadline
      end
  | _ => 0
  end.

Definition is_close (e : effect) : bool :=
  match e with
  | ClosedExecuteFinished => true
  | _ => false
  end.

Definition is_log (l : level) (e : effect) : bool :=
  match e, l with
  | Logged Debug _, Debug | Logged Info _, Info | Logged Error _, Error => true
  | _, _ => false
  end.

(** How often [executeFinished] was closed, and how many lines were logged
    at the error and at the info level. *)
Definition closes_of (effs : list effect) : nat := length (filter is_close effs).
Definition errors_logged (effs : list effect) : nat := length (filter (is_log Error) effs).
Definition infos_logged (effs : list effect) : nat := length (filter (is_log Info) effs).

(** ** Reading a trace *)

(** The lifecycle state that an event reports: every report but the echoes
    of the interrogate case. *)
Definition lifecycle_of (e : event) : option svc.State :=
  match e with
  | EvReport p =>
      match rOrigin p with
      | Echo => None
      | _ => Some (svc.State_ (rStatus p))
      end
  | _ => None
  end.

(** The lifecycle states reported or tried, in the order of the attempts. *)
Definition attempts (t : list event) : list svc.State := omap lifecycle_of t.

Definition lifecycle : list svc.State :=
  [svc.StartPending; svc.Running; svc.StopPending; svc.Stopped].

(** The attempts made once the handler stands at [pc]. *)
Definition expected (pc : mpc) : list svc.State :=
  match pc with
  | MStartPending => []
  | MRunning => [svc.StartPending]
  | MSpawn | MLoop | MEcho1 _ | MSleep _ | MEcho2 _ | MStopPending =>
      [svc.StartPending; svc.Running]
  | MCallback | MWaitDone | MDeferred =>
      [svc.StartPending; svc.Running; svc.StopPending]
  | MReturned _ => lifecycle
  end.

(** The statuses that the statements of one origin reported or tried. *)
Definition from_origin (o : origin) (e : event) : option svc.Status :=
  match e with
  | EvReport p =>
      match o, rOrigin p with
      | Startup, Startup | Echo, Echo | Bounded, Bounded => Some (rStatus p)
      | _, _ => None
      end
  | _ => None
  end.

Definition reports_from (o : origin) (t : list event) : list svc.Status :=
  omap (from_origin o) t.

Definition expected_startup (pc : mpc) : list svc.Status :=
  match pc with
  | MStartPending => []
  | MRunning => [statusOf svc.StartPending]
  | _ => [statusOf svc.StartPending; svc.mkStatus svc.Running cmdsAccepted]
  end.

Definition expected_bounded (pc : mpc) : list svc.Status :=
  match pc with
  | MCallback | MWaitDone | MDeferred => [statusOf svc.StopPending]
  | MReturned _ => [statusOf svc.StopPending; statusOf svc.Stopped]
  | _ => []
  end.

(** What holds of every report in a trace: a plain send is never given up,
    and [trySendState] waits no longer than its deadline, the whole of it
    when it gives up. *)
Definition report_ok (e : event) : Prop :=
  match e with
  | EvReport p =>
      match rOrigin p with
      | Bounded =>
          rWaited p <= sendDeadline /\ (rDelivered p = false -> rWaited p = sendDeadline)
      | _ => rDelivered p = true
      end
  | _ => True
  end.

Definition returned (s : sys) : option (bool * N) :=
  match main s with
  | MReturned res => Some res
  | _ => None
  end.

(** The handler is past the wait of line 95. *)
Definition past_wait (pc : mpc) : bool :=
  match pc with
  | MDeferred | MReturned _ => true
  | _ => false
  end.

(** The handler has not reached the [go] statement yet. *)
Definition before_spawn (pc : mpc) : bool :=
  match pc with
  | MStartPending | MRunning | MSpawn => true
  | _ => false
  end.

(** The invariant of [Execute] on the instance registered with [f]. *)
Record Inv (f : nat) (s : sys) : Prop := mkInv {
  inv_attempts : attempts (trace s) = expected (main s);
  inv_startup : reports_from Startup (trace s) = expected_startup (main s);
  inv_bounded : reports_from Bounded (trace s) = expected_bounded (main s);
  inv_reports : Forall report_ok (trace s);
  inv_ssec : ssec s = false;
  inv_errno : errno s = 0%N;
  inv_result : forall res, main s = MReturned res -> res = (false, 0%N);
  inv_done : past_wait (main s) = true -> done (m s) = ChanClosed;
  inv_spawn : before_spawn (main s) = true <-> mux s = GNotStarted;
  inv_callback : stopCallback (m s) = Some f;
}.

(** ** Interleavings: what the manager offers and what is scheduled *)

(** A Stop or Shutdown request. *)
Definition stop_class (c : svc.ChangeRequest) : bool :=
  match svc.Cmd_ c with
  | svc.Stop | svc.Shutdown => true
  | _ => false
  end.

(** The manager offers nothing but Stop and Shutdown requests. *)
Definition stop_only (a : action) : Prop :=
  match a with
  | AInbound c => stop_class c = true
  | _ => True
  end.

(** The decisions of the scheduler and of the sink, as opposed to those of
    the manager and of the application. *)
Definition scheduled (a : action) : bool :=
  match a with
  | AInbound _ | AStop => false
  | _ => true
  end.

(** What holds when only Stop and Shutdown requests are offered. *)
Record StopOnly (s : sys) : Prop := mkStopOnly {
  so_r : Forall (fun c => stop_class c = true) (r s);
  so_mux : forall c, mux s = GSend c -> stop_class c = true;
  so_loop : main s = MLoop -> mux s <> GExited;
  so_echo : match main s with
            | MEcho1 _ | MSleep _ | MEcho2 _ => False
            | _ => True
            end;
}.

(** A bound on the scheduled steps that are left. *)
Definition rank_main (pc : mpc) : nat :=
  match pc with
  | MStartPending => 42 | MRunning => 41 | MSpawn => 40
  | MEcho1 _ => 9 | MSleep _ => 8 | MEcho2 _ => 7 | MLoop => 6
  | MStopPending => 5 | MCallback => 4 | MWaitDone => 3 | MDeferred => 2
  | MReturned _ => 0
  end.

Definition rank_mux (g : gpc) : nat :=
  match g with
  | GNotStarted => 30 | GSelect => 20 | GSend _ => 10 | GExited => 0
  end.

Definition remaining (s : sys) : nat := rank_mux (mux s) + rank_main (main s).

(** [P] holds on every path of scheduled steps from [s], and no such path
    gets stuck before. *)
Inductive inevitably (P : sys -> Prop) (s : sys) : Prop :=
| inev_now : P s -> inevitably P s
| inev_step :
    (exists a s', scheduled a = true /\ Execute_step a s = Next s') ->
    (forall a s', scheduled a = true -> Execute_step a s = Next s' ->
                  inevitably P s') ->
    inevitably P s.

(** [Execute] has returned after one attempt at each lifecycle state. *)
Definition stopped (s : sys) : Prop :=
  returned s = Some (false, 0%N) /\ attempts (trace s) = lifecycle.

Definition no_stop (a : action) : Prop :=
  match a with
  | AStop => False
  | _ => True
  end.

Definition is_stop (a : action) : bool :=
  match a with
  | AStop => true
  | _ => false
  end.

(** How many times an interleaving fires [done]. *)
Definition fires (acts : list action) : nat := length (filter is_stop acts).

Definition no_accept (a : action) : Prop :=
  match a with
  | AAccept _ => False
  | _ => True
  end.

(** The handler is in the shutdown sequence (lines 86-95 and the deferred
    call). *)
Definition in_shutdown (pc : mpc) : bool :=
  match pc with
  | MStopPending | MCallback | MWaitDone | MDeferred => true
  | _ => false
  end.

(** The rest of the shutdown sequence with a sink that takes nothing. *)
Definition finish (pc : mpc) : list action :=
  match pc with
  | MStopPending => [ATimeout; AMain; AMain; ATimeout]
  | MCallback => [AMain; AMain; ATimeout]
  | MWaitDone => [AMain; ATimeout]
  | MDeferred => [ATimeout]
  | _ => []
  end.

(** ** Named interleavings and states *)

Definition final (acts : list action) (f : nat) : sys :=
  match Execute_run acts (Execute_init f) with
  | Next s => s
  | _ => Execute_init f
  end.

(** The sink takes every report at once; the manager offers [c], the
    multiplexer forwards it, and the application closes [done] after the
    callback. *)
Definition via_request (c : svc.ChangeRequest) : list action :=
  [AAccept 0; AAccept 0; AMain; AInbound c; AMuxRecv; AHandoff;
   AAccept 0; AMain; AStop; AMain; AAccept 0].

(** No request is offered; the application closes [done] while the handler
    is in its loop. *)
Definition via_done : list action :=
  [AAccept 0; AAccept 0; AMain; AStop; AMuxDone; AHandoff;
   AAccept 0; AMain; AMain; AAccept 0].

(** The manager offers a Stop request and the application closes [done]
    before the multiplexer has looked at either; the multiplexer takes the
    request, and the sink is not ready for the last two reports. *)
Definition both_triggers : list action :=
  [AAccept 3; AAccept 1; AInbound (requestOf svc.Stop); AStop; AMain;
   AMuxRecv; AHandoff; ATimeout; AMain; AMain; ATimeout].

(** What the manager sends on interrogation: the status it holds. *)
Definition interrogate : svc.ChangeRequest :=
  svc.mkChangeRequest svc.Interrogate (svc.mkStatus svc.Running cmdsAccepted).

(** The manager offers Interrogate and then Stop; the sink takes every
    report at once. *)
Definition interrogate_then_stop : list action :=
  [AAccept 0; AAccept 0; AMain;
   AInbound interrogate; AInbound (requestOf svc.Stop);
   AMuxRecv; AHandoff; AAccept 0; AMain; AAccept 0].

(** A Stop or Shutdown request is forwarded and the callback returns, while
    nobody closes [done]. *)
Definition request_only (c : svc.ChangeRequest) : list action :=
  [AAccept 0; AAccept 0; AMain; AInbound c; AMuxRecv; AHandoff; AAccept 0; AMain].

(** The loop has just been handed the manager's Interrogate request. *)
Definition interrogated : sys :=
  final [AAccept 0; AAccept 0; AMain; AInbound interrogate; AMuxRecv] 7.

(** Both stop triggers have happened and the sink takes nothing. *)
Definition silent_sink : sys :=
  final [AInbound (requestOf svc.Stop); AStop] 7.

(** A Stop request has ended the loop, [done] is closed, and the sink takes
    nothing any more. *)
Definition stopping : sys :=
  final [AAccept 0; AAccept 0; AMain; AInbound (requestOf svc.Stop); AStop;
         AMuxRecv; AHandoff] 7.

(** A console session: the query succeeds, the process is no service, and
    the registration fails with errno 1063. *)
Definition console : platform :=
  mkPlatform (inr true) (inr false) (Some (Errno 1063)) (Some (Errno 1063)).

(** ** The interrogate case and a loop left without multiplexer *)

(** The loop is waiting and the multiplexer is gone. *)
Definition orphaned (s0 s : sys) : Prop :=
  main s = MLoop /\ mux s = GExited /\ trace s = trace s0
  /\ exists q, r s = r s0 ++ q.

Definition echo_of (c : svc.ChangeRequest) (d : nat) : event :=
  EvReport (send Echo (svc.CurrentStatus c) d).

(** How far the interrogate case has got since the loop received [c] in [s]. *)
Definition echo_stage (s : sys) (c : svc.ChangeRequest) (s' : sys) : Prop :=
  (main s' = MEcho1 c /\ trace s' = trace s)
  \/ (exists d1, main s' = MSleep c /\ trace s' = trace s ++ [echo_of c d1])
  \/ (exists d1, main s' = MEcho2 c
                 /\ trace s' = trace s ++ [echo_of c d1; EvSleep 100])
  \/ (exists d1 d2, main s' = MLoop
                    /\ trace s' = trace s ++ [echo_of c d1; EvSleep 100; echo_of c d2]).

Definition echoing (s : sys) (c : svc.ChangeRequest) (s' : sys) : Prop :=
  mux s' = GExited /\ ssec s' = ssec s /\ errno s' = errno s /\ echo_stage s c s'.

(** ** Further readings of a trace and of an interleaving *)

(** The procedures called, in order. *)
Definition callback_of (e : event) : option nat :=
  match e with
  | EvCallback f => Some f
  | _ => None
  end.

Definition callbacks (t : list event) : list nat := omap callback_of t.

(** The two lines logged around the callback (lines 89 and 96). *)
Definition callback_log : event :=
  EvLog Info "changed windows service state to svc.StopPending, invoking stopCallback".

Definition stopped_log : event :=
  EvLog Debug "windows service state changed to svc.Stopped".

(** A report of [st] made by [trySendState], delivered or not. *)
Definition bounded_report (st : svc.State) (p : report) : Prop :=
  rOrigin p = Bounded /\ rStatus p = statusOf st.

(** How the trace ends once the handler stands at [pc]; before the shutdown
    sequence no procedure has been called. *)
Definition tail_of (f : nat) (pc : mpc) (t : list event) : Prop :=
  match pc with
  | MCallback =>
      exists pre p, t = pre ++ [EvReport p]
        /\ bounded_report svc.StopPending p /\ callbacks pre = []
  | MWaitDone =>
      exists pre p, t = pre ++ [EvReport p; callback_log; EvCallback f]
        /\ bounded_report svc.StopPending p /\ callbacks pre = []
  | MDeferred =>
      exists pre p, t = pre ++ [EvReport p; callback_log; EvCallback f; stopped_log]
        /\ bounded_report svc.StopPending p /\ callbacks pre = []
  | MReturned _ =>
      exists pre p q,
        t = pre ++ [EvReport p; callback_log; EvCallback f; stopped_log; EvReport q]
        /\ bounded_report svc.StopPending p /\ bounded_report svc.Stopped q
        /\ callbacks pre = []
  | _ => callbacks t = []
  end.

(** The requests that the manager offers in an interleaving, in order. *)
Definition offer_of (a : action) : option svc.ChangeRequest :=
  match a with
  | AInbound c => Some c
  | _ => None
  end.

Definition offered (acts : list action) : list svc.ChangeRequest := omap offer_of acts.

(** What the multiplexer has done with the offered requests [q]: nothing
    yet, or it holds the first of them or the Shutdown request it makes up
    when [done] is closed, or it has ended after either. *)
Definition forwarding (q : list svc.ChangeRequest) (s : sys) : Prop :=
  match mux s with
  | GNotStarted | GSelect => r s = q
  | GSend c =>
      q = c :: r s
      \/ (c = requestOf svc.Shutdown /\ done (m s) = ChanClosed /\ r s = q)
  | GExited => (exists c, q = c :: r s) \/ r s = q
  end.

(** A request for which the [switch] has no case. *)
Definition unhandled (c : svc.ChangeRequest) : bool :=
  match svc.Cmd_ c with
  | svc.Interrogate | svc.Stop | svc.Shutdown => false
  | _ => true
  end.

(** The handler is in its loop or in the interrogate case. *)
Definition in_loop (pc : mpc) : bool :=
  match pc with
  | MLoop | MEcho1 _ | MSleep _ | MEcho2 _ => true
  | _ => false
  end.

(** Since [s0] the multiplexer is gone and the handler has not left its
    loop; it has made no lifecycle report and called no procedure. *)
Definition deaf_since (s0 s : sys) : Prop :=
  mux s = GExited /\ in_loop (main s) = true
  /\ attempts (trace s) = attempts (trace s0)
  /\ callbacks (trace s) = callbacks (trace s0).

(** The handler is at one of the two sends of the interrogate case. *)
Definition at_echo (pc : mpc) : bool :=
  match pc with
  | MEcho1 _ | MEcho2 _ => true
  | _ => false
  end.

(** The milliseconds spent in [trySendState]. *)
Definition bounded_wait_of (e : event) : nat :=
  match e with
  | EvReport p =>
      match rOrigin p with
      | Bounded => rWaited p
      | _ => 0
      end
  | _ => 0
  end.

Definition bounded_wait (t : list event) : nat :=
  foldr (fun e n => bounded_wait_of e + n) 0 t.

(** The calls of [trySendState] that lie behind the handler at [pc]. *)
Definition bounded_calls (pc : mpc) : nat :=
  match pc with
  | MCallback | MWaitDone | MDeferred => 1
  | MReturned _ => 2
  | _ => 0
  end.

(** [Execute] entered on any instance, also one without a callback. *)
Definition Execute_on (b : beatService) : sys :=
  mkSys b [] MStartPending GNotStarted false 0%N [].

(** The handler has not got past the call of line 90. *)
Definition before_wait (pc : mpc) : bool :=
  match pc with
  | MWaitDone | MDeferred | MReturned _ => false
  | _ => true
  end.

(** The registrations that [ProcessWindowsControlEvents] made. *)
Definition run_of (e : effect) : option (bool * beatService) :=
  match e with
  | RunCalled i b => Some (i, b)
  | _ => None
  end.

Definition runs (effs : list effect) : list (bool * beatService) := omap run_of effs.

(** The loop has just been handed a Pause request. *)
Definition paused : sys :=
  final [AAccept 0; AAccept 0; AMain; AInbound (requestOf svc.Pause); AMuxRecv] 7.

(** The handler is at the first send of the interrogate case. *)
Definition echoing_first : sys :=
  final [AAccept 0; AAccept 0; AMain; AInbound interrogate; AMuxRecv; AHandoff] 7.

(** What is tried on a handler that does not listen any more: the sink takes
    the echoes, then a Stop request is offered and [done] is closed. *)
Definition late_stop : list action :=
  [AAccept 0; AMain; AAccept 0; AInbound (requestOf svc.Stop); AStop].

(** On an instance without callback, a Stop request has ended the loop and
    StopPending has been reported. *)
Definition nil_at_callback : sys :=
  match Execute_run [AAccept 0; AAccept 0; AMain; AInbound (requestOf svc.Stop);
                     AMuxRecv; AHandoff; AAccept 0] (Execute_on serviceInstance) with
  | Next s => s
  | _ => Execute_on serviceInstance
  end.

(** A service session: the query succeeds, the process is a service, and
    the registration returns without error when the service has stopped. *)
Definition service_session : platform :=
  mkPlatform (inr false) (inr true) None None.

(** ** Lemmas on steps and interleavings *)

Ltac step_inv H :=
  unfold Execute_step, bounded, trySendState, stop, close, dispatch in H;
  repeat case_match; simplify_eq.

(** Closes a conjunction of equations between closed terms by evaluation. *)
Ltac run_eval :=
  repeat match goal with |- _ /\ _ => split end; vm_compute; reflexivity.

Lemma attempts_app t evs : attempts (t ++ evs) = attempts t ++ attempts evs.
Proof. apply omap_app. Qed.

Lemma reports_from_app o t evs :
  reports_from o (t ++ evs) = reports_from o t ++ reports_from o evs.
Proof. apply omap_app. Qed.

Lemma Inv_init f : Inv f (Execute_init f).
Proof. split; cbn; try done. Qed.

Lemma Inv_step f a s s' : Inv f s -> Execute_step a s = Next s' -> Inv f s'.
Proof.
  intros [Ha Hst Hb Hr Hs He Hres Hd Hsp Hc] H.
  step_inv H; split;
    cbn [main mux m r ssec errno trace with_main with_mux with_r with_m
         done stopCallback executeFinished] in *;
    rewrite ?attempts_app, ?reports_from_app, ?Ha, ?Hst, ?Hb;
    repeat match goal with
    | |- Forall _ (_ ++ _) => apply Forall_app; split; [assumption|]
    | |- Forall _ (_ :: _) => constructor
    | |- Forall _ [] => constructor
    end;
    try (match goal with H : main _ = _ |- _ => rewrite H in * end);
    cbn in *; try done; try congruence.
  - split; [by apply Nat.leb_le | congruence].
  - split; [by apply Nat.leb_le | congruence].
  - rewrite Hsp. split; congruence.
  - rewrite Hsp. split; congruence.
Qed.

(** Every state that an interleaving reaches satisfies an invariant of the
    steps. *)
Lemma Execute_run_preserves (P : sys -> Prop) (Q : action -> Prop) :
  (forall a s s', Q a -> P s -> Execute_step a s = Next s' -> P s') ->
  forall acts s s', Forall Q acts -> P s -> Execute_run acts s = Next s' -> P s'.
Proof.
  intros Hstep acts. induction acts as [|a acts IH]; intros s s' HQ HP H; cbn in H.
  - by simplify_eq.
  - inversion HQ; subst.
    destruct (Execute_step a s) as [s1| |] eqn:E; try done.
    apply (IH s1 s'); [assumption | by eapply Hstep | assumption].
Qed.

Lemma Inv_run f acts s :
  Execute_run acts (Execute_init f) = Next s -> Inv f s.
Proof.
  apply (Execute_run_preserves (Inv f) (fun _ => True)).
  - intros. by eapply Inv_step.
  - by apply Forall_true.
  - apply Inv_init.
Qed.

Lemma StopOnly_init f : StopOnly (Execute_init f).
Proof. split; cbn; try done. Qed.

Lemma StopOnly_step a s s' :
  stop_only a -> StopOnly s -> Execute_step a s = Next s' -> StopOnly s'.
Proof.
  intros Ha [Hr Hm Hl He] H.
  step_inv H; split; cbn in *; try done; try congruence;
    try (match goal with H : main _ = _ |- _ => rewrite H in * end);
    try (match goal with H : mux _ = _ |- _ => rewrite H in * end);
    cbn in *; try done; try congruence.
  all: try (apply Forall_app; split; [assumption | by repeat constructor]).
  all: try (by inversion Hr).
  all: try (intros ? [= <-]; by inversion Hr).
  all: try (specialize (Hm _ eq_refl); unfold stop_class in Hm;
            match goal with H : svc.Cmd_ _ = _ |- _ => rewrite H in Hm end; done).
Qed.

Lemma scheduled_step_decreases a s s' :
  scheduled a = true -> Execute_step a s = Next s' -> remaining s' < remaining s.
Proof.
  intros Ha H. unfold remaining.
  step_inv H; cbn in *; try done;
    repeat match goal with H : main _ = _ |- _ => rewrite H; clear H end;
    repeat match goal with H : mux _ = _ |- _ => rewrite H; clear H end;
    cbn; lia.
Qed.

Lemma scheduled_step_done a s s' :
  scheduled a = true -> Execute_step a s = Next s' -> done (m s') = done (m s).
Proof. intros Ha H. step_inv H; cbn in *; done. Qed.

Lemma scheduled_stop_only a : scheduled a = true -> stop_only a.
Proof. by destruct a. Qed.

(** Once [done] is closed some scheduled step is possible until [Execute]
    returns. *)
Lemma closed_progress f s :
  Inv f s -> StopOnly s -> done (m s) = ChanClosed -> returned s = None ->
  exists a s', scheduled a = true /\ Execute_step a s = Next s'.
Proof.
  intros [Ha Hst Hb Hr Hs He Hres Hd Hsp Hc] [Hq Hm Hl Hecho] Hdone Hret.
  unfold returned in Hret.
  destruct (main s) eqn:Emain; try done.
  - exists (AAccept 0). eexists. split; [done|]. cbn. by rewrite Emain.
  - exists (AAccept 0). eexists. split; [done|]. cbn. by rewrite Emain.
  - exists AMain. eexists. split; [done|]. cbn. by rewrite Emain.
  - destruct (mux s) eqn:Emux.
    + exfalso. cbn in Hsp. destruct Hsp as [_ Hsp]. by specialize (Hsp eq_refl).
    + exists AMuxDone. eexists. split; [done|]. cbn. by rewrite Emux, Hdone.
    + exists AHandoff. destruct (dispatch c) as [pc evs] eqn:Ed.
      eexists. split; [done|]. cbn. by rewrite Emux, Emain, Ed.
    + exfalso. by apply Hl.
  - exists ATimeout. eexists. split; [done|]. cbn. by rewrite Emain.
  - exists AMain. eexists. split; [done|]. cbn. by rewrite Emain, Hc.
  - exists AMain. eexists. split; [done|]. cbn. by rewrite Emain, Hdone.
  - exists ATimeout. eexists. split; [done|]. cbn. by rewrite Emain.
Qed.

Lemma closed_inevitably_stopped f s :
  Inv f s -> StopOnly s -> done (m s) = ChanClosed -> inevitably stopped s.
Proof.
  remember (remaining s) as n eqn:En. revert s En.
  induction n as [n IH] using lt_wf_ind. intros s -> HI HS Hdone.
  destruct (returned s) as [res|] eqn:Eret.
  - apply inev_now. unfold stopped, returned in *.
    destruct (main s) eqn:Emain; try done. simplify_eq.
    split.
    + f_equal. by eapply inv_result.
    + erewrite inv_attempts by eassumption. by rewrite Emain.
  - apply inev_step; [by eapply closed_progress|].
    intros a s' Ha Hstep.
    eapply (IH (remaining s')); eauto using scheduled_step_decreases, Inv_step.
    + eapply StopOnly_step; eauto using scheduled_stop_only.
    + erewrite scheduled_step_done; eauto.
Qed.

Lemma orphaned_step s0 a s s' :
  orphaned s0 s -> Execute_step a s = Next s' -> orphaned s0 s'.
Proof.
  intros (Hm & Hg & Ht & q & Hq) H. unfold orphaned.
  step_inv H; cbn; try congruence.
  - repeat split; try done. exists (q ++ [c]). by rewrite Hq, app_assoc.
  - repeat split; try done. by exists q.
Qed.

Lemma orphaned_run s0 acts s' :
  main s0 = MLoop -> mux s0 = GExited ->
  Execute_run acts s0 = Next s' -> orphaned s0 s'.
Proof.
  intros Hm Hg.
  apply (Execute_run_preserves (orphaned s0) (fun _ => True)).
  - intros. by eapply orphaned_step.
  - by apply Forall_true.
  - repeat split; try done. exists []. by rewrite app_nil_r.
Qed.

Lemma echoing_step s c a s1 s2 :
  echoing s c s1 -> Execute_step a s1 = Next s2 -> echoing s c s2.
Proof.
  intros (Hg & Hs & He & Hst) H. unfold echoing, echo_stage in *.
  destruct Hst as [[Hm Ht]|[(d1 & Hm & Ht)|[(d1 & Hm & Ht)|(d1 & d2 & Hm & Ht)]]];
    step_inv H;
    cbn [main mux m r ssec errno trace with_main with_mux with_r with_m] in *;
    try congruence;
    (split; [done|]); (split; [done|]); (split; [done|]);
    simplify_eq; rewrite ?Ht, <- ?app_assoc; cbn; eauto 10.
Qed.

Lemma echoing_attempts s c s' :
  echo_stage s c s' -> attempts (trace s') = attempts (trace s).
Proof.
  intros [[_ Ht]|[(d1 & _ & Ht)|[(d1 & _ & Ht)|(d1 & d2 & _ & Ht)]]];
    rewrite Ht, ?attempts_app; cbn; by rewrite ?app_nil_r.
Qed.

Lemma no_stop_step a s s' :
  no_stop a -> done (m s) = ChanOpen -> Execute_step a s = Next s' ->
  done (m s') = ChanOpen.
Proof. intros Ha Hd H. step_inv H; cbn in *; done. Qed.

Lemma no_stop_run f acts s :
  Forall no_stop acts -> Execute_run acts (Execute_init f) = Next s ->
  done (m s) = ChanOpen.
Proof.
  intros Hacts.
  apply (Execute_run_preserves (fun s => done (m s) = ChanOpen) no_stop);
    [|assumption|reflexivity].
  intros. by eapply no_stop_step.
Qed.

Lemma no_accept_step a s s' :
  no_accept a -> main s = MStartPending /\ trace s = [] ->
  Execute_step a s = Next s' -> main s' = MStartPending /\ trace s' = [].
Proof. intros Ha [Hm Ht] H. step_inv H; cbn in *; done. Qed.

(** A closed [done] stays closed. *)
Lemma done_closed_run acts s s' :
  done (m s) = ChanClosed -> Execute_run acts s = Next s' ->
  done (m s') = ChanClosed.
Proof.
  apply (Execute_run_preserves (fun s => done (m s) = ChanClosed) (fun _ => True)).
  - intros a s1 s2 _ Hd H. step_inv H; cbn in *; congruence.
  - by apply Forall_true.
Qed.

(** While the sink takes nothing the handler stays at its first statement. *)
Lemma no_accept_run f acts s :
  Forall no_accept acts -> Execute_run acts (Execute_init f) = Next s ->
  main s = MStartPending /\ trace s = [].
Proof.
  intros Hacts.
  apply (Execute_run_preserves
           (fun s => main s = MStartPending /\ trace s = []) no_accept);
    [|assumption|done].
  intros. by eapply no_accept_step.
Qed.

Lemma finish_run f s :
  Inv f s -> in_shutdown (main s) = true -> done (m s) = ChanClosed ->
  exists s', Execute_run (finish (main s)) s = Next s' /\ stopped s'.
Proof.
  intros HI Hin Hd.
  pose proof (inv_callback _ _ HI) as Hc.
  pose proof (inv_attempts _ _ HI) as Ha.
  pose proof (inv_ssec _ _ HI) as Hs.
  pose proof (inv_errno _ _ HI) as He.
  unfold stopped, returned.
  destruct (main s) eqn:Emain; try discriminate Hin; cbn;
    rewrite ?Emain; cbn; rewrite ?Hc, ?Hd; cbn; rewrite ?Hd; cbn;
    eexists; (split; [reflexivity|]); cbn;
    rewrite ?attempts_app, Ha, Hs, He; done.
Qed.

Lemma body_never_closes p callback b :
  closes_of (ProcessWindowsControlEvents_body p callback b).2 = 0
  /\ executeFinished (ProcessWindowsControlEvents_body p callback b).1
     = executeFinished b.
Proof.
  unfold ProcessWindowsControlEvents_body.
  destruct (IsAnInteractiveSession p) as [e|[]]; cbn; try done.
  - destruct (debugRun p) as [err|]; cbn; [|done].
    by destruct (isCouldNotConnect err).
  - destruct (svcRun p) as [err|]; cbn; [|done].
    by destruct (isCouldNotConnect err).
Qed.

(** ** C1: one StopPending, one Stopped, in order *)

(** C1. In every interleaving of the application's closing of [done] with
    Stop and Shutdown requests from the manager, the lifecycle states that
    [Execute] reports or tries to report are a prefix of StartPending,
    Running, StopPending, Stopped; they are exactly these four, each once,
    when [Execute] has returned; a report is dropped only by [trySendState];
    and once [done] is closed every path of scheduled steps ends with
    [Execute] returned after the four attempts. *)
Theorem Execute_stop_exactly_once (f : nat) (acts : list action) (s : sys) :
  Forall stop_only acts ->
  Execute_run acts (Execute_init f) = Next s ->
  attempts (trace s) `prefix_of` lifecycle
  /\ (forall res, returned s = Some res -> attempts (trace s) = lifecycle)
  /\ (forall p, EvReport p ∈ trace s -> rDelivered p = false -> rOrigin p = Bounded)
  /\ (done (m s) = ChanClosed -> inevitably stopped s).
Proof.
  intros Hacts Hrun.
  pose proof (Inv_run _ _ _ Hrun) as HI.
  assert (HS : StopOnly s).
  { revert Hrun. apply (Execute_run_preserves StopOnly stop_only); auto.
    - intros. by eapply StopOnly_step.
    - apply StopOnly_init. }
  split; [|split; [|split]].
  - rewrite (inv_attempts _ _ HI). unfold lifecycle.
    destruct (main s); cbn;
      first [ by apply prefix_nil | reflexivity
            | by exists [svc.Running; svc.StopPending; svc.Stopped]
            | by exists [svc.StopPending; svc.Stopped]
            | by exists [svc.Stopped] ].
  - intros res Hres. rewrite (inv_attempts _ _ HI).
    unfold returned in Hres. by destruct (main s).
  - intros p Hin Hdrop.
    pose proof (inv_reports _ _ HI) as Hr.
    rewrite Forall_forall in Hr. specialize (Hr _ Hin). cbn in Hr.
    destruct (rOrigin p); congruence.
  - intros Hdone. by eapply closed_inevitably_stopped.
Qed.

Lemma Execute_stop_exactly_once_witness :
  Forall stop_only both_triggers
  /\ Execute_run both_triggers (Execute_init 7) = Next (final both_triggers 7)
  /\ attempts (trace (final both_triggers 7)) = lifecycle.
Proof.
  assert (H1 : Forall stop_only both_triggers) by (repeat constructor).
  assert (H2 : Execute_run both_triggers (Execute_init 7) = Next (final both_triggers 7))
    by (vm_compute; reflexivity).
  split; [exact H1 | split; [exact H2|]].
  apply (proj1 (proj2 (Execute_stop_exactly_once 7 both_triggers _ H1 H2))
           (false, 0%N)).
  vm_compute; reflexivity.
Defined.

(** ** C2: the multiplexer forwards one request *)

(** C2, at the input that breaks it. After the Interrogate request has been
    forwarded and answered, the handler is back in its loop, the multiplexer
    has ended, and the Stop request stays on [r]: whatever happens next, also
    the closing of [done], the handler stays in its loop and reports nothing
    more. *)
Theorem Execute_stop_after_interrogate_lost :
  Execute_run interrogate_then_stop (Execute_init 7)
    = Next (final interrogate_then_stop 7)
  /\ main (final interrogate_then_stop 7) = MLoop
  /\ mux (final interrogate_then_stop 7) = GExited
  /\ r (final interrogate_then_stop 7) = [requestOf svc.Stop]
  /\ attempts (trace (final interrogate_then_stop 7))
       = [svc.StartPending; svc.Running]
  /\ (forall acts s',
        Execute_run acts (final interrogate_then_stop 7) = Next s' ->
        main s' = MLoop
        /\ (exists q, r s' = requestOf svc.Stop :: q)
        /\ attempts (trace s') = [svc.StartPending; svc.Running]).
Proof.
  repeat (split; [vm_compute; reflexivity|]).
  intros acts s' Hrun.
  apply orphaned_run in Hrun; [|vm_compute; reflexivity..].
  destruct Hrun as (Hm & _ & Ht & q & Hq).
  split; [done|]. split.
  - exists q. rewrite Hq. vm_compute; reflexivity.
  - rewrite Ht. vm_compute; reflexivity.
Qed.

(** ** C3: the wait after the callback *)

(** C3, at the input that breaks it. The application fires [done] once, as
    its stop request, and never again; no request comes from the manager.
    The wait after the callback is on the same [done], so the sequence is
    not suspended: Stopped is reported and [Execute] returns. *)
Lemma Execute_stop_request_completes :
  fires via_done = 1
  /\ Execute_run via_done (Execute_init 7) = Next (final via_done 7)
  /\ r (final via_done 7) = []
  /\ returned (final via_done 7) = Some (false, 0%N)
  /\ reports_from Bounded (trace (final via_done 7))
       = [statusOf svc.StopPending; statusOf svc.Stopped]
  /\ last (trace (final via_done 7))
       = Some (EvReport (mkReport Bounded (statusOf svc.Stopped) true 0)).
Proof. run_eval. Qed.

(** C3, amended. [Execute] waits after the callback on [done], the channel
    that is also its stop signal. While [done] is never closed the handler
    does not get past that wait and Stopped is not tried, and after a Stop or
    Shutdown request alone the handler stands at the wait, the callback
    called, and cannot step. Stopped is tried only with [done] closed; with
    [done] closed, as it is and stays when its closing was the trigger, the
    wait is passed at once. *)
Theorem Execute_waits_on_done (f : nat) (acts : list action) (s : sys) :
  Execute_run acts (Execute_init f) = Next s ->
  (Forall no_stop acts ->
     past_wait (main s) = false /\ svc.Stopped ∉ attempts (trace s))
  /\ (svc.Stopped ∈ attempts (trace s) -> done (m s) = ChanClosed)
  /\ (main s = MWaitDone -> done (m s) = ChanOpen -> Execute_step AMain s = Blocked)
  /\ (main s = MWaitDone -> done (m s) = ChanClosed ->
      exists s', Execute_step AMain s = Next s' /\ main s' = MDeferred)
  /\ (forall more s', done (m s) = ChanClosed ->
        Execute_run more s = Next s' -> done (m s') = ChanClosed)
  /\ (forall c, stop_class c = true ->
        main (final (request_only c) f) = MWaitDone
        /\ last (trace (final (request_only c) f)) = Some (EvCallback f)
        /\ Execute_step AMain (final (request_only c) f) = Blocked).
Proof.
  intros Hrun. pose proof (Inv_run _ _ _ Hrun) as HI.
  assert (Hstopped : svc.Stopped ∈ attempts (trace s) -> past_wait (main s) = true).
  { rewrite (inv_attempts _ _ HI). unfold lifecycle.
    destruct (main s); cbn; try done; intros Hin;
      repeat (apply elem_of_cons in Hin as [?|Hin]; [discriminate|]);
      by apply elem_of_nil in Hin. }
  split; [|split; [|split; [|split; [|split]]]].
  - intros Hacts. pose proof (no_stop_run _ _ _ Hacts Hrun) as Hopen.
    assert (Hp : past_wait (main s) = false).
    { destruct (past_wait (main s)) eqn:E; [|done].
      pose proof (inv_done _ _ HI E). congruence. }
    split; [done|]. intros Hin. apply Hstopped in Hin. congruence.
  - intros Hin. apply (inv_done _ _ HI). by apply Hstopped.
  - intros Hm Hd. cbn. by rewrite Hm, Hd.
  - intros Hm Hd. eexists. cbn. rewrite Hm, Hd. by split.
  - intros more s' Hd Hmore. by eapply done_closed_run.
  - intros [cmd st] Hc. unfold stop_class in Hc. cbn in Hc.
    destruct cmd; try discriminate Hc; run_eval.
Qed.

Lemma Execute_waits_on_done_witness :
  Execute_run (request_only (requestOf svc.Stop)) (Execute_init 7)
    = Next (final (request_only (requestOf svc.Stop)) 7)
  /\ Forall no_stop (request_only (requestOf svc.Stop))
  /\ past_wait (main (final (request_only (requestOf svc.Stop)) 7)) = false
  /\ svc.Stopped ∉ attempts (trace (final (request_only (requestOf svc.Stop)) 7)).
Proof.
  assert (H : Execute_run (request_only (requestOf svc.Stop)) (Execute_init 7)
              = Next (final (request_only (requestOf svc.Stop)) 7))
    by (vm_compute; reflexivity).
  assert (H' : Forall no_stop (request_only (requestOf svc.Stop)))
    by (repeat constructor).
  split; [exact H|]. split; [exact H'|].
  exact (proj1 (Execute_waits_on_done 7 _ _ H) H').
Defined.

(** ** C4: stop *)

(** C4, at the input that breaks it. The first [stop] closes [done]; the
    second panics, in the model of the call and in any interleaving. *)
Lemma stop_twice_panics :
  stop serviceInstance = Returns (mkBeatService None ChanClosed ChanOpen)
  /\ stop (mkBeatService None ChanClosed ChanOpen) = Panics "close of closed channel"
  /\ notifyWindowsServiceStopped (mkBeatService None ChanClosed ChanOpen)
       = Panics "close of closed channel"
  /\ Execute_run [AStop; AStop] (Execute_init 7) = Panic "close of closed channel".
Proof. run_eval. Qed.

(** C4, amended. [stop] closes [done] when it is open and changes nothing
    else; on a closed [done] it panics, wherever [Execute] stands. *)
Theorem stop_closes_once (b : beatService) (s : sys) :
  (done b = ChanOpen ->
     stop b = Returns (mkBeatService (stopCallback b) ChanClosed (executeFinished b)))
  /\ (done b = ChanClosed -> stop b = Panics "close of closed channel")
  /\ (done (m s) = ChanOpen ->
      exists s', Execute_step AStop s = Next s'
                 /\ done (m s') = ChanClosed
                 /\ main s' = main s /\ mux s' = mux s /\ trace s' = trace s)
  /\ (done (m s) = ChanClosed ->
      Execute_step AStop s = Panic "close of closed channel").
Proof.
  unfold Execute_step, stop, close.
  split; [|split; [|split]]; intros H; rewrite H; try done.
  eexists. by split.
Qed.

(** ** C5: the startup reports *)

(** C5, at the input that breaks it. The timer is no case of the two startup
    sends, and a startup send lasts as long as the sink makes it wait, here
    two seconds each. *)
Lemma Execute_startup_send_unbounded :
  Execute_step ATimeout (Execute_init 7) = Blocked
  /\ Execute_step ATimeout (final [AAccept 2000] 7) = Blocked
  /\ trace (final [AAccept 2000; AAccept 2000] 7)
       = [EvReport (mkReport Startup (statusOf svc.StartPending) true 2000);
          EvReport (mkReport Startup (svc.mkStatus svc.Running cmdsAccepted) true 2000)]
  /\ sendDeadline < 2000.
Proof.
  repeat match goal with |- _ /\ _ => split end;
    [vm_compute; reflexivity ..|unfold sendDeadline; lia].
Qed.

(** C5, amended. [Execute] first reports StartPending and then Running with
    the accepted commands Stop and Shutdown (the mask 5), before any other
    lifecycle report. The two are plain sends: each is delivered, never given
    up, and while the sink takes nothing the handler stays at the first of
    them with nothing reported. *)
Theorem Execute_startup_reports (f : nat) (acts : list action) (s : sys) :
  Execute_run acts (Execute_init f) = Next s ->
  reports_from Startup (trace s)
    `prefix_of` [statusOf svc.StartPending; svc.mkStatus svc.Running 5%N]
  /\ (main s <> MStartPending -> main s <> MRunning ->
      reports_from Startup (trace s)
        = [statusOf svc.StartPending; svc.mkStatus svc.Running 5%N]
      /\ take 2 (attempts (trace s)) = [svc.StartPending; svc.Running])
  /\ (forall p, EvReport p ∈ trace s -> rOrigin p = Startup -> rDelivered p = true)
  /\ (Forall no_accept acts -> main s = MStartPending /\ trace s = [])
  /\ N.testbit cmdsAccepted 0 = true /\ N.testbit cmdsAccepted 2 = true
  /\ cmdsAccepted = 5%N.
Proof.
  intros Hrun. pose proof (Inv_run _ _ _ Hrun) as HI.
  split; [|split; [|split; [|split]]].
  - rewrite (inv_startup _ _ HI).
    destruct (main s); cbn;
      first [ by apply prefix_nil | reflexivity
            | by exists [svc.mkStatus svc.Running 5%N] ].
  - intros H1 H2. rewrite (inv_startup _ _ HI), (inv_attempts _ _ HI).
    by destruct (main s).
  - intros p Hin Ho.
    pose proof (inv_reports _ _ HI) as Hr.
    rewrite Forall_forall in Hr. specialize (Hr _ Hin). cbn in Hr.
    by rewrite Ho in Hr.
  - intros Hacts. by eapply no_accept_run.
  - done.
Qed.

(** The sink takes the two startup reports, late, and nothing else happens. *)
Lemma Execute_startup_reports_witness :
  Execute_run [AAccept 2000; AAccept 2000] (Execute_init 7)
    = Next (final [AAccept 2000; AAccept 2000] 7)
  /\ reports_from Startup (trace (final [AAccept 2000; AAccept 2000] 7))
       `prefix_of` [statusOf svc.StartPending; svc.mkStatus svc.Running 5%N].
Proof.
  assert (H : Execute_run [AAccept 2000; AAccept 2000] (Execute_init 7)
              = Next (final [AAccept 2000; AAccept 2000] 7))
    by (vm_compute; reflexivity).
  split; [exact H|].
  exact (proj1 (Execute_startup_reports 7 _ _ H)).
Defined.

(** ** C6: trySendState in the shutdown sequence *)

(** C6, at the input that breaks it. With a sink that takes no write at all
    the handler is held at the StartPending send: both stop triggers have
    happened, and no step but the sink's is possible, so StopPending and
    Stopped are never tried. *)
Lemma Execute_silent_sink_blocks :
  main silent_sink = MStartPending
  /\ done (m silent_sink) = ChanClosed
  /\ r silent_sink = [requestOf svc.Stop]
  /\ trace silent_sink = []
  /\ Execute_step ATimeout silent_sink = Blocked
  /\ Execute_step AMain silent_sink = Blocked
  /\ Execute_step AMuxRecv silent_sink = Blocked
  /\ Execute_step AMuxDone silent_sink = Blocked
  /\ Execute_step AHandoff silent_sink = Blocked.
Proof. run_eval. Qed.

(** C6, amended. Every report made by [trySendState] is one attempt that
    waits at most 500 ms and exactly 500 ms when it is given up; StopPending
    and Stopped are each tried at most once; and a timeout ends nothing: from
    anywhere in the shutdown sequence, once [done] is closed, the handler
    reaches the return through the Stopped attempt even when the sink takes
    nothing more. The sends before the shutdown sequence are not bounded: a
    sink that takes nothing from the start holds the handler at its first
    statement. *)
Theorem trySendState_never_aborts (f : nat) (acts : list action) (s : sys) :
  Execute_run acts (Execute_init f) = Next s ->
  (forall p, EvReport p ∈ trace s -> rOrigin p = Bounded ->
     rWaited p <= 500 /\ (rDelivered p = false -> rWaited p = 500))
  /\ reports_from Bounded (trace s)
       `prefix_of` [statusOf svc.StopPending; statusOf svc.Stopped]
  /\ (forall st pick p, trySendState st pick = Some p ->
        rStatus p = statusOf st /\ rWaited p <= 500
        /\ (rDelivered p = false <-> pick = CaseTimer))
  /\ (in_shutdown (main s) = true -> done (m s) = ChanClosed ->
      Forall no_accept (finish (main s))
      /\ exists s', Execute_run (finish (main s)) s = Next s' /\ stopped s')
  /\ (Forall no_accept acts -> main s = MStartPending /\ trace s = []).
Proof.
  intros Hrun. pose proof (Inv_run _ _ _ Hrun) as HI.
  split; [|split; [|split; [|split]]].
  - intros p Hin Ho.
    pose proof (inv_reports _ _ HI) as Hr.
    rewrite Forall_forall in Hr. specialize (Hr _ Hin). cbn in Hr.
    by rewrite Ho in Hr.
  - rewrite (inv_bounded _ _ HI).
    destruct (main s); cbn;
      first [ by apply prefix_nil | reflexivity
            | by exists [statusOf svc.Stopped] ].
  - intros st pick p H. unfold trySendState in H.
    destruct pick as [d|].
    + destruct (d <=? sendDeadline)%nat eqn:E; [|done]. simplify_eq. cbn.
      apply Nat.leb_le in E. unfold sendDeadline in E. by repeat split.
    + simplify_eq. cbn. unfold sendDeadline. by repeat split.
  - intros Hin Hd. split; [|by eapply finish_run].
    destruct (main s); try discriminate Hin; repeat constructor.
  - intros Hacts. by eapply no_accept_run.
Qed.

Lemma trySendState_never_aborts_witness :
  Execute_run [AAccept 0; AAccept 0; AMain; AInbound (requestOf svc.Stop); AStop;
               AMuxRecv; AHandoff] (Execute_init 7) = Next stopping
  /\ in_shutdown (main stopping) = true
  /\ done (m stopping) = ChanClosed
  /\ exists s', Execute_run (finish (main stopping)) stopping = Next s' /\ stopped s'.
Proof.
  assert (H : Execute_run [AAccept 0; AAccept 0; AMain; AInbound (requestOf svc.Stop);
                           AStop; AMuxRecv; AHandoff] (Execute_init 7) = Next stopping)
    by (vm_compute; reflexivity).
  assert (H1 : in_shutdown (main stopping) = true) by (vm_compute; reflexivity).
  assert (H2 : done (m stopping) = ChanClosed) by (vm_compute; reflexivity).
  repeat (split; [assumption|]).
  exact (proj2 (proj1 (proj2 (proj2 (proj2 (trySendState_never_aborts 7 _ _ H)))) H1 H2)).
Defined.

(** ** C7: the interrogate case *)

(** C7. When the loop receives an Interrogate request [c], then at every
    later moment the handler has added to the trace nothing but the start of:
    a report of [c.CurrentStatus], a sleep of 100 ms, a second report of
    [c.CurrentStatus]; it is back in its loop exactly when it has added all
    three. The lifecycle reports and the named results stay as they were, and
    with a sink that takes both reports the handler does get back to its
    loop. *)
Theorem Execute_interrogate_echoes_twice
    (s : sys) (c : svc.ChangeRequest) (acts : list action) (s' : sys) :
  main s = MLoop -> mux s = GSend c -> svc.Cmd_ c = svc.Interrogate ->
  Execute_run (AHandoff :: acts) s = Next s' ->
  echo_stage s c s'
  /\ attempts (trace s') = attempts (trace s)
  /\ ssec s' = ssec s /\ errno s' = errno s
  /\ (forall d1 d2, exists s2,
        Execute_run [AHandoff; AAccept d1; AMain; AAccept d2] s = Next s2
        /\ main s2 = MLoop
        /\ trace s2 = trace s ++ [echo_of c d1; EvSleep 100; echo_of c d2]).
Proof.
  intros Hm Hg Hc Hrun.
  assert (He : echoing s c s').
  { cbn in Hrun. rewrite Hm, Hg in Hrun. unfold dispatch in Hrun.
    rewrite Hc in Hrun. revert Hrun.
    apply (Execute_run_preserves (echoing s c) (fun _ => True)).
    - intros. by eapply echoing_step.
    - by apply Forall_true.
    - repeat split; try done. left. cbn. by rewrite app_nil_r. }
  destruct He as (_ & Hs & He & Hst).
  split; [done|]. split; [by eapply echoing_attempts|].
  split; [done|]. split; [done|].
  intros d1 d2. eexists. cbn. rewrite Hm, Hg. unfold dispatch. rewrite Hc. cbn.
  split; [reflexivity|]. split; [done|].
  cbn. by rewrite app_nil_r, <- !app_assoc.
Qed.

Lemma Execute_interrogate_echoes_twice_witness :
  main interrogated = MLoop
  /\ mux interrogated = GSend interrogate
  /\ svc.Cmd_ interrogate = svc.Interrogate
  /\ Execute_run [AHandoff; AAccept 3; AMain; AAccept 4] interrogated
       = Next (final [AAccept 0; AAccept 0; AMain; AInbound interrogate; AMuxRecv;
                      AHandoff; AAccept 3; AMain; AAccept 4] 7)
  /\ echo_stage interrogated interrogate
       (final [AAccept 0; AAccept 0; AMain; AInbound interrogate; AMuxRecv;
               AHandoff; AAccept 3; AMain; AAccept 4] 7).
Proof.
  assert (H1 : main interrogated = MLoop) by (vm_compute; reflexivity).
  assert (H2 : mux interrogated = GSend interrogate) by (vm_compute; reflexivity).
  assert (H3 : svc.Cmd_ interrogate = svc.Interrogate) by reflexivity.
  assert (H4 : Execute_run [AHandoff; AAccept 3; AMain; AAccept 4] interrogated
               = Next (final [AAccept 0; AAccept 0; AMain; AInbound interrogate; AMuxRecv;
                              AHandoff; AAccept 3; AMain; AAccept 4] 7))
    by (vm_compute; reflexivity).
  repeat (split; [assumption|]).
  exact (proj1 (Execute_interrogate_echoes_twice _ _ _ _ H1 H2 H3 H4)).
Defined.

(** ** C8: WaitExecutionDone and the exit marker *)

(** C8. [WaitExecutionDone] does not block at all when the process is not a
    Windows service, or when that cannot be told, whatever the state of the
    exit marker; otherwise it blocks at most 500 ms. On an instance whose
    [executeFinished] is open, [ProcessWindowsControlEvents] returns on every
    path with [executeFinished] closed, by one close, which is the last thing
    it does. *)
Theorem WaitExecutionDone_bounded
    (p : platform) (callback : nat) (b : beatService) (closes : option nat) :
  executeFinished b = ChanOpen ->
  (IsWindowsService p <> inr true -> WaitExecutionDone p b closes = 0)
  /\ WaitExecutionDone p b closes <= 500
  /\ exists b' effs,
       ProcessWindowsControlEvents p callback b
         = Returns (b', effs ++ [ClosedExecuteFinished])
       /\ executeFinished b' = ChanClosed
       /\ closes_of effs = 0
       /\ closes_of (effs ++ [ClosedExecuteFinished]) = 1
       /\ WaitExecutionDone p b' closes = 0.
Proof.
  intros Hopen. split; [|split].
  - intros Hno. unfold WaitExecutionDone.
    destruct (IsWindowsService p) as [e|[]]; congruence.
  - unfold WaitExecutionDone, waitDeadline.
    destruct (IsWindowsService p) as [e|[]]; try lia.
    destruct (executeFinished b), closes; lia.
  - unfold ProcessWindowsControlEvents.
    destruct (body_never_closes p callback b) as [H0 He].
    destruct (ProcessWindowsControlEvents_body p callback b) as [b' effs].
    cbn in H0, He. rewrite He, Hopen. cbn.
    eexists _, effs. split; [reflexivity|]. cbn.
    split; [done|]. split; [done|]. split.
    + unfold closes_of in *. rewrite filter_app, length_app, H0. done.
    + unfold WaitExecutionDone. by destruct (IsWindowsService p) as [e|[]].
Qed.

Lemma WaitExecutionDone_bounded_witness :
  executeFinished serviceInstance = ChanOpen
  /\ WaitExecutionDone console serviceInstance None = 0
  /\ WaitExecutionDone console serviceInstance None <= 500.
Proof.
  assert (H : executeFinished serviceInstance = ChanOpen) by reflexivity.
  split; [exact H|]. split.
  - apply (proj1 (WaitExecutionDone_bounded console 7 serviceInstance None H)).
    discriminate.
  - exact (proj1 (proj2 (WaitExecutionDone_bounded console 7 serviceInstance None H))).
Defined.

(** ** C9: failures of ProcessWindowsControlEvents *)

(** C9. On an instance whose [executeFinished] is open,
    [ProcessWindowsControlEvents] returns, without a panic and with no error
    value, on every path. When the session query fails it logs one error and
    registers nothing; when the registration fails with errno 1063 it logs
    one info line and no error; when it fails otherwise it logs one error. *)
Theorem ProcessWindowsControlEvents_absorbs_failures
    (p : platform) (callback : nat) (b : beatService) :
  executeFinished b = ChanOpen ->
  exists b' effs,
    ProcessWindowsControlEvents p callback b = Returns (b', effs)
    /\ (forall e, IsAnInteractiveSession p = inl e ->
          effs = [Logged Error "IsAnInteractiveSession: %v"; ClosedExecuteFinished]
          /\ stopCallback b' = stopCallback b)
    /\ (forall i err, IsAnInteractiveSession p = inr i ->
          (if i then debugRun p else svcRun p) = Some err ->
          stopCallback b' = Some callback
          /\ if isCouldNotConnect err
             then errors_logged effs = 0 /\ infos_logged effs = 1
             else errors_logged effs = 1 /\ infos_logged effs = 0).
Proof.
  intros Hopen. unfold ProcessWindowsControlEvents, ProcessWindowsControlEvents_body.
  destruct (IsAnInteractiveSession p) as [e|i] eqn:Ei; cbn.
  - rewrite Hopen. cbn. eexists _, _. split; [reflexivity|]. cbn.
    split; [by intros ? _|]. intros ?? [=].
  - destruct (if i then debugRun p else svcRun p) as [err|] eqn:Er; cbn.
    + destruct (isCouldNotConnect err) eqn:Ec; cbn; rewrite Hopen; cbn;
        eexists _, _; (split; [reflexivity|]); cbn;
        (split; [by intros ? [=]|]); intros i' err' [= <-] Hr;
        rewrite Er in Hr; simplify_eq; rewrite Ec; by split.
    + rewrite Hopen. cbn. eexists _, _. split; [reflexivity|]. cbn.
      split; [by intros ? [=]|].
      intros i' err' [= <-] Hr. rewrite Er in Hr. done.
Qed.

Lemma ProcessWindowsControlEvents_absorbs_failures_witness :
  executeFinished serviceInstance = ChanOpen
  /\ exists b' effs,
       ProcessWindowsControlEvents console 7 serviceInstance = Returns (b', effs)
       /\ (forall e, IsAnInteractiveSession console = inl e ->
             effs = [Logged Error "IsAnInteractiveSession: %v"; ClosedExecuteFinished]
             /\ stopCallback b' = stopCallback serviceInstance)
       /\ (forall i err, IsAnInteractiveSession console = inr i ->
             (if i then debugRun console else svcRun console) = Some err ->
             stopCallback b' = Some 7
             /\ if isCouldNotConnect err
                then errors_logged effs = 0 /\ infos_logged effs = 1
                else errors_logged effs = 1 /\ infos_logged effs = 0).
Proof.
  assert (H : executeFinished serviceInstance = ChanOpen) by reflexivity.
  split; [exact H|].
  exact (ProcessWindowsControlEvents_absorbs_failures console 7 serviceInstance H).
Defined.

(** ** C10: the results of Execute *)

(** C10. Whatever was processed and whichever trigger ended the loop, when
    [Execute] returns it returns [ssec = false] and [errno = 0]; and it does
    return so on a Stop request, on a Shutdown request, and on the closing of
    [done] alone. *)
Theorem Execute_returns_no_error (f : nat) (acts : list action) (s : sys) :
  Execute_run acts (Execute_init f) = Next s ->
  (forall res, returned s = Some res -> res = (false, 0%N))
  /\ (forall c, stop_class c = true ->
        returned (final (via_request c) f) = Some (false, 0%N))
  /\ returned (final via_done f) = Some (false, 0%N).
Proof.
  intros Hrun. split; [|split].
  - intros res Hres. unfold returned in Hres.
    destruct (main s) eqn:Emain; try done. simplify_eq.
    eapply inv_result; [by eapply Inv_run | done].
  - intros [cmd st] Hc. unfold stop_class in Hc. cbn in Hc.
    destruct cmd; try discriminate Hc; vm_compute; reflexivity.
  - vm_compute; reflexivity.
Qed.

Lemma Execute_returns_no_error_witness :
  Execute_run via_done (Execute_init 7) = Next (final via_done 7)
  /\ returned (final via_done 7) = Some (false, 0%N)
  /\ (forall res, returned (final via_done 7) = Some res -> res = (false, 0%N)).
Proof.
  assert (H : Execute_run via_done (Execute_init 7) = Next (final via_done 7))
    by (vm_compute; reflexivity).
  split; [exact H|]. split; [vm_compute; reflexivity|].
  exact (proj1 (Execute_returns_no_error 7 via_done _ H)).
Defined.

(** ** Further properties of the event loop *)

Lemma callbacks_app t evs : callbacks (t ++ evs) = callbacks t ++ callbacks evs.
Proof. apply omap_app. Qed.

Lemma deaf_since_step s0 a s s' :
  deaf_since s0 s -> Execute_step a s = Next s' -> deaf_since s0 s'.
Proof.
  intros (Hg & Hl & Ha & Hc) H. unfold deaf_since.
  step_inv H;
    cbn [main mux m r ssec errno trace with_main with_mux with_r with_m] in *;
    try congruence;
    try (match goal with H : main _ = _ |- _ => rewrite H in Hl end; discriminate Hl);
    rewrite ?attempts_app, ?callbacks_app, ?Ha, ?Hc; cbn;
    rewrite ?app_nil_r; done.
Qed.

(** X1. Once the loop has received a request that is neither Stop nor
    Shutdown, the multiplexer is gone for good and the handler never leaves
    its loop again: whatever is offered or closed afterwards, [Execute] makes
    no further lifecycle report, calls no procedure and does not return. *)
Theorem Execute_deaf_after_other_request
    (s : sys) (c : svc.ChangeRequest) (more : list action) (s' : sys) :
  main s = MLoop -> mux s = GSend c -> stop_class c = false ->
  Execute_run (AHandoff :: more) s = Next s' ->
  mux s' = GExited
  /\ in_loop (main s') = true
  /\ returned s' = None
  /\ attempts (trace s') = attempts (trace s)
  /\ callbacks (trace s') = callbacks (trace s).
Proof.
  intros Hm Hg Hc Hrun.
  assert (Hd : deaf_since s s').
  { cbn in Hrun. rewrite Hm, Hg in Hrun.
    destruct (dispatch c) as [pc evs] eqn:Ed.
    revert Hrun.
    apply (Execute_run_preserves (deaf_since s) (fun _ => True)).
    - intros. by eapply deaf_since_step.
    - by apply Forall_true.
    - unfold dispatch, stop_class in *.
      destruct (svc.Cmd_ c); try discriminate Hc; simplify_eq;
        repeat split; cbn; rewrite ?attempts_app, ?callbacks_app; cbn;
        by rewrite ?app_nil_r. }
  destruct Hd as (Hg' & Hl & Ha & Hcb).
  repeat (split; [done|]). split; [|done].
  unfold returned. by destruct (main s').
Qed.

Lemma Execute_deaf_after_other_request_witness :
  main interrogated = MLoop
  /\ mux interrogated = GSend interrogate
  /\ stop_class interrogate = false
  /\ Execute_run (AHandoff :: late_stop) interrogated
       = Next (final ([AAccept 0; AAccept 0; AMain; AInbound interrogate; AMuxRecv]
                        ++ AHandoff :: late_stop) 7)
  /\ returned (final ([AAccept 0; AAccept 0; AMain; AInbound interrogate; AMuxRecv]
                        ++ AHandoff :: late_stop) 7) = None.
Proof.
  assert (H1 : main interrogated = MLoop) by (vm_compute; reflexivity).
  assert (H2 : mux interrogated = GSend interrogate) by (vm_compute; reflexivity).
  assert (H3 : stop_class interrogate = false) by reflexivity.
  assert (H4 : Execute_run (AHandoff :: late_stop) interrogated
               = Next (final ([AAccept 0; AAccept 0; AMain; AInbound interrogate; AMuxRecv]
                                ++ AHandoff :: late_stop) 7))
    by (vm_compute; reflexivity).
  repeat (split; [assumption|]).
  exact (proj1 (proj2 (proj2 (Execute_deaf_after_other_request _ _ _ _ H1 H2 H3 H4)))).
Defined.

(** X2. A request for which the [switch] has no case (Pause, Continue, any
    other code) is answered by one error line and nothing else: from then on
    the handler stands in its loop and the trace stays as it was plus that
    line, whatever happens. *)
Theorem Execute_unhandled_request_logged
    (s : sys) (c : svc.ChangeRequest) (more : list action) (s' : sys) :
  main s = MLoop -> mux s = GSend c -> unhandled c = true ->
  Execute_run (AHandoff :: more) s = Next s' ->
  main s' = MLoop
  /\ trace s' = trace s ++ [EvLog Error "Unexpected control request: $%d. Ignored."]
  /\ ssec s' = ssec s /\ errno s' = errno s.
Proof.
  intros Hm Hg Hc Hrun.
  cbn in Hrun. rewrite Hm, Hg in Hrun.
  assert (Hd : dispatch c
               = (MLoop, [EvLog Error "Unexpected control request: $%d. Ignored."])).
  { unfold dispatch, unhandled in *. by destruct (svc.Cmd_ c). }
  rewrite Hd in Hrun.
  assert (Hk : forall s1, Execute_run more s1 = Next s' ->
                 ssec s' = ssec s1 /\ errno s' = errno s1).
  { intros s1.
    apply (Execute_run_preserves
             (fun x => ssec x = ssec s1 /\ errno x = errno s1) (fun _ => True));
      [|by apply Forall_true|done].
    intros a x y _ [Hx1 Hx2] H. step_inv H; cbn; by split. }
  pose proof (Hk _ Hrun) as [Hs He].
  apply orphaned_run in Hrun; [|done..].
  destruct Hrun as (Hm' & _ & Ht & _).
  repeat split; done.
Qed.

Lemma Execute_unhandled_request_logged_witness :
  main paused = MLoop
  /\ mux paused = GSend (requestOf svc.Pause)
  /\ unhandled (requestOf svc.Pause) = true
  /\ Execute_run (AHandoff :: [AInbound (requestOf svc.Stop); AStop]) paused
       = Next (final [AAccept 0; AAccept 0; AMain; AInbound (requestOf svc.Pause);
                      AMuxRecv; AHandoff; AInbound (requestOf svc.Stop); AStop] 7)
  /\ main (final [AAccept 0; AAccept 0; AMain; AInbound (requestOf svc.Pause);
                  AMuxRecv; AHandoff; AInbound (requestOf svc.Stop); AStop] 7) = MLoop.
Proof.
  assert (H1 : main paused = MLoop) by (vm_compute; reflexivity).
  assert (H2 : mux paused = GSend (requestOf svc.Pause)) by (vm_compute; reflexivity).
  assert (H3 : unhandled (requestOf svc.Pause) = true) by reflexivity.
  assert (H4 : Execute_run (AHandoff :: [AInbound (requestOf svc.Stop); AStop]) paused
               = Next (final [AAccept 0; AAccept 0; AMain; AInbound (requestOf svc.Pause);
                              AMuxRecv; AHandoff; AInbound (requestOf svc.Stop); AStop] 7))
    by (vm_compute; reflexivity).
  repeat (split; [assumption|]).
  exact (proj1 (Execute_unhandled_request_logged _ _ _ _ H1 H2 H3 H4)).
Defined.

(** X3. The two sends of the interrogate case have no timer: while the sink
    takes nothing the handler stays at the send it is at and adds nothing to
    the trace, whatever the manager offers and also when [done] is closed. *)
Theorem Execute_echo_waits_for_sink (s : sys) (acts : list action) (s' : sys) :
  at_echo (main s) = true -> Forall no_accept acts ->
  Execute_run acts s = Next s' ->
  main s' = main s /\ trace s' = trace s.
Proof.
  intros He Hacts.
  apply (Execute_run_preserves
           (fun x => main x = main s /\ trace x = trace s) no_accept);
    [|assumption|done].
  intros a x y Ha [Hx Ht] H.
  step_inv H; cbn in *; try done;
    exfalso; rewrite <- Hx in He; discriminate He.
Qed.

Lemma Execute_echo_waits_for_sink_witness :
  at_echo (main echoing_first) = true
  /\ Forall no_accept [AInbound (requestOf svc.Stop); AStop]
  /\ Execute_run [AInbound (requestOf svc.Stop); AStop] echoing_first
       = Next (final [AAccept 0; AAccept 0; AMain; AInbound interrogate; AMuxRecv;
                      AHandoff; AInbound (requestOf svc.Stop); AStop] 7)
  /\ main (final [AAccept 0; AAccept 0; AMain; AInbound interrogate; AMuxRecv;
                  AHandoff; AInbound (requestOf svc.Stop); AStop] 7)
     = main echoing_first.
Proof.
  assert (H1 : at_echo (main echoing_first) = true) by (vm_compute; reflexivity).
  assert (H2 : Forall no_accept [AInbound (requestOf svc.Stop); AStop])
    by (repeat constructor).
  assert (H3 : Execute_run [AInbound (requestOf svc.Stop); AStop] echoing_first
               = Next (final [AAccept 0; AAccept 0; AMain; AInbound interrogate; AMuxRecv;
                              AHandoff; AInbound (requestOf svc.Stop); AStop] 7))
    by (vm_compute; reflexivity).
  repeat (split; [assumption|]).
  exact (proj1 (Execute_echo_waits_for_sink _ _ _ H1 H2 H3)).
Defined.

(** ** Further properties of the shutdown sequence *)

Lemma tail_of_init f : tail_of f (main (Execute_init f)) (trace (Execute_init f)).
Proof. done. Qed.

Lemma tail_of_step f a s s' :
  stopCallback (m s) = Some f ->
  tail_of f (main s) (trace s) -> Execute_step a s = Next s' ->
  tail_of f (main s') (trace s').
Proof.
  intros Hc Ht H.
  step_inv H;
    cbn [main mux m r ssec errno trace with_main with_mux with_r with_m] in *;
    try exact Ht;
    try (match goal with H : main _ = _ |- _ => rewrite H in Ht end);
    unfold tail_of, bounded_report in *;
    first
      [ rewrite callbacks_app, Ht; reflexivity
      | by (eexists _, _; split; [reflexivity|])
      | destruct Ht as (pre & p & -> & Hp & Hpre);
        rewrite <- app_assoc; cbn;
        first [ by (eexists _, _; split; [reflexivity|])
              | by (eexists _, _, _; split; [reflexivity|]) ] ].
Qed.

Lemma tail_of_run f acts s :
  Execute_run acts (Execute_init f) = Next s -> tail_of f (main s) (trace s).
Proof.
  intros Hrun.
  assert (H : stopCallback (m s) = Some f /\ tail_of f (main s) (trace s)).
  { revert Hrun.
    apply (Execute_run_preserves
             (fun s => stopCallback (m s) = Some f /\ tail_of f (main s) (trace s))
             (fun _ => True)).
    - intros a x y _ [Hc Ht] H. split; [|by eapply tail_of_step].
      step_inv H; cbn in *; done.
    - by apply Forall_true.
    - split; [done|apply tail_of_init]. }
  by destruct H.
Qed.

Lemma returned_is_final res acts s s' :
  main s = MReturned res -> Execute_run acts s = Next s' ->
  main s' = MReturned res /\ trace s' = trace s.
Proof.
  intros Hm.
  apply (Execute_run_preserves
           (fun x => main x = MReturned res /\ trace x = trace s) (fun _ => True));
    [|by apply Forall_true|done].
  intros a x y _ [Hx Ht] H. step_inv H; cbn in *; done.
Qed.

(** X4. [Execute] calls the registered procedure at most once, and no other.
    When it has returned, the last five things it did are, in this order: the
    StopPending attempt of [trySendState], the info line, the call of the
    procedure, the debug line, and the Stopped attempt of the deferred
    [trySendState]; the procedure was not called before, and nothing is added
    to the trace after the return. *)
Theorem Execute_shutdown_order (f : nat) (acts : list action) (s : sys) :
  Execute_run acts (Execute_init f) = Next s ->
  callbacks (trace s) `prefix_of` [f]
  /\ (forall res, returned s = Some res ->
        (exists pre p q,
           trace s = pre ++ [EvReport p; callback_log; EvCallback f;
                             stopped_log; EvReport q]
           /\ bounded_report svc.StopPending p
           /\ bounded_report svc.Stopped q
           /\ callbacks pre = [])
        /\ forall more s', Execute_run more s = Next s' -> trace s' = trace s).
Proof.
  intros Hrun. pose proof (tail_of_run _ _ _ Hrun) as Ht.
  unfold tail_of in Ht. split.
  - destruct (main s);
      try (rewrite Ht; apply prefix_nil);
      try (destruct Ht as (pre & p & -> & _ & Hpre));
      try (destruct Ht as (pre & p & q & -> & _ & _ & Hpre));
      rewrite callbacks_app, Hpre; cbn; first [by apply prefix_nil | reflexivity].
  - intros res Hres. unfold returned in Hres.
    destruct (main s) eqn:Em; try done. simplify_eq. split; [exact Ht|].
    intros more s' Hmore. by eapply returned_is_final.
Qed.

Lemma Execute_shutdown_order_witness :
  Execute_run both_triggers (Execute_init 7) = Next (final both_triggers 7)
  /\ callbacks (trace (final both_triggers 7)) `prefix_of` [7].
Proof.
  assert (H : Execute_run both_triggers (Execute_init 7) = Next (final both_triggers 7))
    by (vm_compute; reflexivity).
  split; [exact H|].
  exact (proj1 (Execute_shutdown_order 7 _ _ H)).
Defined.

Lemma bounded_wait_app t evs : bounded_wait (t ++ evs) = bounded_wait t + bounded_wait evs.
Proof.
  unfold bounded_wait. induction t as [|e t IH]; cbn; [done|]. rewrite IH. lia.
Qed.

Lemma bounded_wait_step a s s' :
  bounded_wait (trace s) <= bounded_calls (main s) * sendDeadline ->
  Execute_step a s = Next s' ->
  bounded_wait (trace s') <= bounded_calls (main s') * sendDeadline.
Proof.
  intros Hw H.
  step_inv H;
    cbn [main mux m r ssec errno trace with_main with_mux with_r with_m] in *;
    try done;
    try (match goal with H : main _ = _ |- _ => rewrite H in Hw end);
    rewrite ?bounded_wait_app; cbn in *;
    repeat match goal with
    | H : (_ <=? _) = true |- _ => apply Nat.leb_le in H
    end;
    unfold sendDeadline in *; lia.
Qed.

(** X5. In any interleaving the time that [Execute] has spent blocked in
    [trySendState] is at most 500 ms for each call behind it, so at most one
    second in all. *)
Theorem Execute_bounded_wait (f : nat) (acts : list action) (s : sys) :
  Execute_run acts (Execute_init f) = Next s ->
  bounded_wait (trace s) <= bounded_calls (main s) * 500
  /\ bounded_wait (trace s) <= 1000.
Proof.
  intros Hrun.
  assert (H : bounded_wait (trace s) <= bounded_calls (main s) * sendDeadline).
  { revert Hrun.
    apply (Execute_run_preserves
             (fun s => bounded_wait (trace s) <= bounded_calls (main s) * sendDeadline)
             (fun _ => True)).
    - intros. by eapply bounded_wait_step.
    - by apply Forall_true.
    - cbn. lia. }
  unfold sendDeadline in H. split; [done|].
  destruct (main s); cbn in H; lia.
Qed.

Lemma Execute_bounded_wait_witness :
  Execute_run both_triggers (Execute_init 7) = Next (final both_triggers 7)
  /\ bounded_wait (trace (final both_triggers 7)) <= 1000.
Proof.
  assert (H : Execute_run both_triggers (Execute_init 7) = Next (final both_triggers 7))
    by (vm_compute; reflexivity).
  split; [exact H|].
  exact (proj2 (Execute_bounded_wait 7 _ _ H)).
Defined.

(** ** Further properties of the multiplexer *)

Lemma Execute_run_snoc acts a s s' :
  Execute_run (acts ++ [a]) s = Next s' ->
  exists s1, Execute_run acts s = Next s1 /\ Execute_step a s1 = Next s'.
Proof.
  revert s. induction acts as [|b acts IH]; intros s H; cbn in *.
  - destruct (Execute_step a s) as [s1| |] eqn:E; try done.
    cbn in H. simplify_eq. by exists s.
  - destruct (Execute_step b s) as [s1| |] eqn:E; try done. by apply IH.
Qed.

Lemma forwarding_same q s s' :
  mux s' = mux s -> r s' = r s -> done (m s') = done (m s) ->
  forwarding q s -> forwarding q s'.
Proof. unfold forwarding. by intros -> -> ->. Qed.

Lemma forwarding_step f q a s s' :
  Inv f s ->
  forwarding q s -> Execute_step a s = Next s' -> forwarding (q ++ offered [a]) s'.
Proof.
  intros HI Hf H.
  destruct a; cbn [offered offer_of omap]; rewrite ?app_nil_r.
  - step_inv H; by apply (forwarding_same q s).
  - step_inv H; by apply (forwarding_same q s).
  - cbn in H. simplify_eq. unfold forwarding in *. cbn.
    destruct (mux s).
    + by rewrite Hf.
    + by rewrite Hf.
    + destruct Hf as [->|(-> & Hd & ->)]; [by left|by right].
    + destruct Hf as [[c' ->]| ->]; [left; by exists c'|by right].
  - unfold Execute_step, stop, close in H.
    destruct (done (m s)) eqn:Ed; [|done]. simplify_eq.
    unfold forwarding in *. cbn.
    destruct (mux s); try done.
    destruct Hf as [Hf|(_ & Hf & _)]; [by left|congruence].
  - unfold Execute_step in H.
    destruct (mux s) eqn:Em; try done. destruct (r s) as [|c q0] eqn:Er; [done|].
    simplify_eq. unfold forwarding in *. rewrite Em in Hf. cbn. left. congruence.
  - unfold Execute_step in H.
    destruct (mux s) eqn:Em; try done. destruct (done (m s)) eqn:Ed; [done|].
    simplify_eq. unfold forwarding in *. rewrite Em in Hf. cbn. by right.
  - unfold Execute_step in H.
    destruct (mux s) eqn:Em; try done. destruct (main s) eqn:Ema; try done.
    destruct (dispatch c) as [pc evs]. simplify_eq.
    unfold forwarding in *. rewrite Em in Hf. cbn.
    destruct Hf as [Hf|(_ & _ & Hf)].
    + left. exists c. exact Hf.
    + right. exact Hf.
  - unfold Execute_step in H.
    destruct (main s) eqn:Ema; try done.
    + simplify_eq. unfold forwarding in *. cbn.
      assert (Hg : mux s = GNotStarted).
      { apply (inv_spawn _ _ HI). by rewrite Ema. }
      by rewrite Hg in Hf.
    + simplify_eq. by apply (forwarding_same q s).
    + destruct (stopCallback (m s)); [|done]. simplify_eq.
      by apply (forwarding_same q s).
    + destruct (done (m s)); [done|]. simplify_eq.
      by apply (forwarding_same q s).
Qed.

Lemma forwarding_run f acts s :
  Execute_run acts (Execute_init f) = Next s -> forwarding (offered acts) s.
Proof.
  revert s. induction acts as [|a acts IH] using rev_ind; intros s H.
  - cbn in H. by simplify_eq.
  - apply Execute_run_snoc in H as (s1 & H1 & H2).
    unfold offered. rewrite omap_app.
    eapply forwarding_step; eauto using Inv_run.
Qed.

(** X6. The multiplexer takes at most one request off [r], the first that
    the manager offered, and the requests left on [r] are the others in their
    order. What it holds for the loop is that first request unchanged, or the
    Shutdown request with empty status that it makes up, and this one only
    with [done] closed and nothing taken off [r]. *)
Theorem Execute_forwards_first_or_shutdown (f : nat) (acts : list action) (s : sys) :
  Execute_run acts (Execute_init f) = Next s ->
  (exists taken, offered acts = taken ++ r s /\ length taken <= 1)
  /\ (forall c, mux s = GSend c ->
        offered acts = c :: r s
        \/ (c = requestOf svc.Shutdown /\ done (m s) = ChanClosed
            /\ r s = offered acts)).
Proof.
  intros Hrun. pose proof (forwarding_run _ _ _ Hrun) as Hf.
  unfold forwarding in Hf. split.
  - destruct (mux s) as [| |c|].
    + exists []. split; [by rewrite Hf | cbn; lia].
    + exists []. split; [by rewrite Hf | cbn; lia].
    + destruct Hf as [Hf|(_ & _ & Hf)];
        [exists [c]|exists []]; (split; [by rewrite Hf | cbn; lia]).
    + destruct Hf as [[c Hf]|Hf];
        [exists [c]|exists []]; (split; [by rewrite Hf | cbn; lia]).
  - intros c Hc. rewrite Hc in Hf. done.
Qed.

Lemma Execute_forwards_first_or_shutdown_witness :
  Execute_run [AAccept 0; AAccept 0; AMain; AInbound interrogate;
               AInbound (requestOf svc.Stop); AMuxRecv] (Execute_init 7)
    = Next (final [AAccept 0; AAccept 0; AMain; AInbound interrogate;
                   AInbound (requestOf svc.Stop); AMuxRecv] 7)
  /\ exists taken,
       offered [AAccept 0; AAccept 0; AMain; AInbound interrogate;
                AInbound (requestOf svc.Stop); AMuxRecv]
         = taken ++ r (final [AAccept 0; AAccept 0; AMain; AInbound interrogate;
                              AInbound (requestOf svc.Stop); AMuxRecv] 7)
       /\ length taken <= 1.
Proof.
  assert (H : Execute_run [AAccept 0; AAccept 0; AMain; AInbound interrogate;
                           AInbound (requestOf svc.Stop); AMuxRecv] (Execute_init 7)
              = Next (final [AAccept 0; AAccept 0; AMain; AInbound interrogate;
                             AInbound (requestOf svc.Stop); AMuxRecv] 7))
    by (vm_compute; reflexivity).
  split; [exact H|].
  exact (proj1 (Execute_forwards_first_or_shutdown 7 _ _ H)).
Defined.

(** ** Execute on an instance without callback *)

Lemma nil_callback_step a s s' :
  stopCallback (m s) = None /\ before_wait (main s) = true
  /\ callbacks (trace s) = [] ->
  Execute_step a s = Next s' ->
  stopCallback (m s') = None /\ before_wait (main s') = true
  /\ callbacks (trace s') = [].
Proof.
  intros (Hc & Hb & Ht) H.
  step_inv H;
    cbn [main mux m r ssec errno trace with_main with_mux with_r with_m
         done stopCallback executeFinished] in *;
    rewrite ?callbacks_app, ?Ht; cbn; try done; try congruence;
    match goal with H : main _ = _ |- _ => rewrite H in Hb; discriminate Hb end.
Qed.

(** X7. Entered on an instance whose [stopCallback] is nil, [Execute] never
    gets past the call of line 90: it calls no procedure, does not wait on
    [done] and does not return, and when it stands at the call, the
    StopPending report behind it, its next step is the panic of a nil call.
    A Stop or Shutdown request alone leads there. *)
Theorem Execute_nil_callback_panics (b : beatService) (acts : list action) (s : sys) :
  stopCallback b = None ->
  Execute_run acts (Execute_on b) = Next s ->
  before_wait (main s) = true
  /\ returned s = None
  /\ callbacks (trace s) = []
  /\ (main s = MCallback ->
      Execute_step AMain s = Panic "invalid memory address or nil pointer dereference")
  /\ (forall c, stop_class c = true ->
        Execute_run (request_only c) (Execute_on b)
          = Panic "invalid memory address or nil pointer dereference").
Proof.
  intros Hnil Hrun.
  assert (H : stopCallback (m s) = None /\ before_wait (main s) = true
              /\ callbacks (trace s) = []).
  { revert Hrun.
    apply (Execute_run_preserves
             (fun s => stopCallback (m s) = None /\ before_wait (main s) = true
                       /\ callbacks (trace s) = []) (fun _ => True)).
    - intros. by eapply nil_callback_step.
    - by apply Forall_true.
    - done. }
  destruct H as (Hc & Hb & Ht).
  split; [done|]. split; [|split; [done|split]].
  - unfold returned. by destruct (main s).
  - intros Hm. cbn. by rewrite Hm, Hc.
  - intros [cmd st] Hcls. unfold stop_class in Hcls. cbn in Hcls.
    destruct b as [cb d e]. cbn in Hnil. subst cb.
    destruct cmd; try discriminate Hcls; vm_compute; reflexivity.
Qed.

Lemma Execute_nil_callback_panics_witness :
  stopCallback serviceInstance = None
  /\ Execute_run [AAccept 0; AAccept 0; AMain; AInbound (requestOf svc.Stop);
                  AMuxRecv; AHandoff; AAccept 0] (Execute_on serviceInstance)
       = Next nil_at_callback
  /\ main nil_at_callback = MCallback
  /\ Execute_step AMain nil_at_callback
       = Panic "invalid memory address or nil pointer dereference".
Proof.
  assert (H1 : stopCallback serviceInstance = None) by reflexivity.
  assert (H2 : Execute_run [AAccept 0; AAccept 0; AMain; AInbound (requestOf svc.Stop);
                            AMuxRecv; AHandoff; AAccept 0] (Execute_on serviceInstance)
               = Next nil_at_callback) by (vm_compute; reflexivity).
  assert (H3 : main nil_at_callback = MCallback) by (vm_compute; reflexivity).
  repeat (split; [assumption|]).
  exact (proj1 (proj2 (proj2 (proj2
           (Execute_nil_callback_panics serviceInstance _ _ H1 H2)))) H3).
Defined.

(** ** Further properties of ProcessWindowsControlEvents *)

Lemma runs_app effs1 effs2 : runs (effs1 ++ effs2) = runs effs1 ++ runs effs2.
Proof. apply omap_app. Qed.

(** X8. [ProcessWindowsControlEvents] registers the handler at most once:
    not at all when the session query fails, and otherwise once, through
    [debug.Run] exactly when the session is interactive, on the instance that
    already holds the callback and whose [executeFinished] is still open.
    When the registration returns no error, nothing is logged at the info or
    the error level. *)
Theorem ProcessWindowsControlEvents_registers_once
    (p : platform) (callback : nat) (b : beatService) :
  executeFinished b = ChanOpen ->
  exists b' effs,
    ProcessWindowsControlEvents p callback b = Returns (b', effs)
    /\ match IsAnInteractiveSession p with
       | inl _ => runs effs = [] /\ stopCallback b' = stopCallback b
       | inr i =>
           runs effs = [(i, mkBeatService (Some callback) (done b) ChanOpen)]
           /\ stopCallback b' = Some callback
           /\ ((if i then debugRun p else svcRun p) = None ->
               errors_logged effs = 0 /\ infos_logged effs = 0)
       end.
Proof.
  intros Hopen. unfold ProcessWindowsControlEvents, ProcessWindowsControlEvents_body.
  destruct (IsAnInteractiveSession p) as [e|i]; cbn.
  - rewrite Hopen. cbn. eexists _, _. split; [reflexivity|]. done.
  - destruct (if i then debugRun p else svcRun p) as [err|]; cbn.
    + destruct (isCouldNotConnect err); cbn; rewrite Hopen; cbn;
        eexists _, _; (split; [reflexivity|]); cbn; by rewrite ?Hopen.
    + rewrite Hopen. cbn. eexists _, _. split; [reflexivity|]. cbn.
      by rewrite ?Hopen.
Qed.

Lemma ProcessWindowsControlEvents_registers_once_witness :
  executeFinished serviceInstance = ChanOpen
  /\ exists b' effs,
       ProcessWindowsControlEvents service_session 7 serviceInstance
         = Returns (b', effs)
       /\ match IsAnInteractiveSession service_session with
          | inl _ => runs effs = [] /\ stopCallback b' = stopCallback serviceInstance
          | inr i =>
              runs effs
                = [(i, mkBeatService (Some 7) (done serviceInstance) ChanOpen)]
              /\ stopCallback b' = Some 7
              /\ ((if i then debugRun service_session else svcRun service_session)
                    = None ->
                  errors_logged effs = 0 /\ infos_logged effs = 0)
          end.
Proof.
  assert (H : executeFinished serviceInstance = ChanOpen) by reflexivity.
  split; [exact H|].
  exact (ProcessWindowsControlEvents_registers_once service_session 7 serviceInstance H).
Defined.

(** X9. [ProcessWindowsControlEvents] can be called once: after a call that
    returned, a second call on the instance it left panics in the deferred
    [close], whatever the platform answers and whichever callback is given;
    and [WaitExecutionDone] on that instance does not block. *)
Theorem ProcessWindowsControlEvents_second_call_panics
    (p1 p2 p3 : platform) (cb1 cb2 : nat) (b b1 : beatService)
    (effs : list effect) (closes : option nat) :
  ProcessWindowsControlEvents p1 cb1 b = Returns (b1, effs) ->
  ProcessWindowsControlEvents p2 cb2 b1 = Panics "close of closed channel"
  /\ WaitExecutionDone p3 b1 closes = 0.
Proof.
  intros H1.
  assert (Hclosed : executeFinished b1 = ChanClosed).
  { unfold ProcessWindowsControlEvents in H1.
    destruct (ProcessWindowsControlEvents_body p1 cb1 b) as [b' effs'].
    unfold close in H1. destruct (executeFinished b'); by simplify_eq. }
  split.
  - unfold ProcessWindowsControlEvents.
    destruct (body_never_closes p2 cb2 b1) as [_ He].
    destruct (ProcessWindowsControlEvents_body p2 cb2 b1) as [b' effs'].
    cbn in He. by rewrite He, Hclosed.
  - unfold WaitExecutionDone. rewrite Hclosed.
    by destruct (IsWindowsService p3) as [e|[]].
Qed.

(** The instance that a first call in a console session leaves. *)
Lemma ProcessWindowsControlEvents_second_call_panics_witness :
  ProcessWindowsControlEvents console 7 serviceInstance
    = Returns (mkBeatService (Some 7) ChanOpen ChanClosed,
               [Logged Debug "Windows is interactive: %v";
                RunCalled true (mkBeatService (Some 7) ChanOpen ChanOpen);
                Logged Info "Attempted to register Windows service handlers, but this is not a service. No action necessary";
                ClosedExecuteFinished])
  /\ ProcessWindowsControlEvents service_session 8
       (mkBeatService (Some 7) ChanOpen ChanClosed)
     = Panics "close of closed channel".
Proof.
  assert (H : ProcessWindowsControlEvents console 7 serviceInstance
              = Returns (mkBeatService (Some 7) ChanOpen ChanClosed,
                         [Logged Debug "Windows is interactive: %v";
                          RunCalled true (mkBeatService (Some 7) ChanOpen ChanOpen);
                          Logged Info "Attempted to register Windows service handlers, but this is not a service. No action necessary";
                          ClosedExecuteFinished]))
    by (vm_compute; reflexivity).
  split; [exact H|].
  exact (proj1 (ProcessWindowsControlEvents_second_call_panics
                  console service_session console 7 8 _ _ _ None H)).
Defined.
